(** * Realcuy: the archive deployment handler of [src/index.js]

    A shallow embedding of [sanitizeInput] and [handleDeployRequest]
    (the same two functions are repeated verbatim in the stand-alone
    deploy endpoint), together with the runtime pieces they rest on:
    the regular expression of the sanitizer, the UTF-8 and base64
    conversions of [Buffer], and promises awaited one after the other. *)

From Stdlib Require Import NArith Lia Ascii String.
From stdpp Require Import base option list gmap.

Local Open Scope N_scope.

(** ** JavaScript strings

    A JavaScript string is a sequence of 16-bit code units.  String
    literals of the source are all ASCII and are written through [js]. *)

Abbreviation jsstring := (list N).

Fixpoint js (s : string) : jsstring :=
  match s with
  | EmptyString => []
  | String a s' => N_of_ascii a :: js s'
  end.

Definition ch (a : ascii) : N := N_of_ascii a.

(** ** Regular expressions

    The fragment of the JavaScript pattern language that the sanitizer's
    literal [/<\/?[^>]+(>|$)/g] is written in, with the backtracking
    semantics of the language: alternatives are tried left to right,
    [?] and [+] are greedy, and [$] (no [m] flag) holds at the end of the
    input only.  A matcher takes the rest of the input and a continuation
    and answers with what is left of the input behind the whole match. *)

Inductive Regex : Type :=
  | RChar (c : N)
  | RNotChar (c : N)
  | REnd
  | RSeq (r1 r2 : Regex)
  | RAlt (r1 r2 : Regex)
  | ROpt (r : Regex)
  | RPlus (r : Regex).

Definition Matcher : Type :=
  jsstring -> (jsstring -> option jsstring) -> option jsstring.

Definition or_else (a : option jsstring) (b : option jsstring) : option jsstring :=
  match a with
  | Some x => Some x
  | None => b
  end.

(** One more greedy round of [m], then the continuation.  Every round of
    the bodies used here eats a character, so [S (length s)] rounds of
    fuel are never used up. *)
Fixpoint plus_loop (m : Matcher) (k : jsstring -> option jsstring)
    (fuel : nat) (s : jsstring) : option jsstring :=
  match fuel with
  | O => None
  | S n => m s (fun s' => or_else (plus_loop m k n s') (k s'))
  end.

Fixpoint rmatch (r : Regex) : Matcher :=
  fun s k =>
  match r with
  | RChar c =>
      match s with
      | x :: s' => if x =? c then k s' else None
      | [] => None
      end
  | RNotChar c =>
      match s with
      | x :: s' => if x =? c then None else k s'
      | [] => None
      end
  | REnd =>
      match s with
      | [] => k []
      | _ :: _ => None
      end
  | RSeq r1 r2 => rmatch r1 s (fun s' => rmatch r2 s' k)
  | RAlt r1 r2 => or_else (rmatch r1 s k) (rmatch r2 s k)
  | ROpt r1 => or_else (rmatch r1 s k) (k s)
  | RPlus r1 => plus_loop (rmatch r1) k (S (length s)) s
  end.

(** A match attempt at the head of [s]: the input left behind the match. *)
Definition exec (r : Regex) (s : jsstring) : option jsstring :=
  rmatch r s Some.

(** [s.replace(r, e)] for a global [r] and the empty string [e]: the
    leftmost match is cut out and the search goes on behind it; where
    nothing matches, the character is kept.  After an empty match the
    search moves one character on. *)
Fixpoint replace_loop (fuel : nat) (r : Regex) (s : jsstring) : jsstring :=
  match fuel with
  | O => []
  | S n =>
      let keep :=
        match s with
        | [] => []
        | c :: s' => c :: replace_loop n r s'
        end in
      match exec r s with
      | Some rest =>
          if (length rest <? length s)%nat then replace_loop n r rest else keep
      | None => keep
      end
  end.

Definition replace_all (r : Regex) (s : jsstring) : jsstring :=
  replace_loop (S (length s)) r s.

(** ** sanitizeInput (src/index.js, lines 58-68) *)

(** [/<\/?[^>]+(>|$)/] *)
Definition tag_pattern : Regex :=
  RSeq (RChar (ch "<"))
    (RSeq (ROpt (RChar (ch "/")))
       (RSeq (RPlus (RNotChar (ch ">")))
          (RAlt (RChar (ch ">")) REnd))).

(** The values a form field can hold: formidable hands over an array of
    strings per field name; the sanitizer's own output holds strings. *)
Inductive JsValue : Type :=
  | VUndefined
  | VStr (s : jsstring)
  | VArr (l : list jsstring).

(** [Array.prototype.join(",")] *)
Fixpoint join_comma (l : list jsstring) : jsstring :=
  match l with
  | [] => []
  | [s] => s
  | s :: l' => s ++ ch "," :: join_comma l'
  end.

(** [String(v)] *)
Definition String_of (v : JsValue) : jsstring :=
  match v with
  | VUndefined => js "undefined"
  | VStr s => s
  | VArr l => join_comma l
  end.

Definition strip_tags (s : jsstring) : jsstring := replace_all tag_pattern s.

(** [sanitized[key] = value] on an object made by [{}]: the key
    [__proto__] reaches the setter of [Object.prototype], which ignores a
    string, so no own property appears. *)
Definition set_property (key : jsstring) (value : JsValue)
    (obj : gmap jsstring JsValue) : gmap jsstring JsValue :=
  if decide (key = js "__proto__") then obj else <[key := value]> obj.

(** The [for ... in] loop over the own enumerable properties. *)
Definition sanitizeInput (fields : gmap jsstring JsValue) : gmap jsstring JsValue :=
  map_fold
    (fun key v sanitized => set_property key (VStr (strip_tags (String_of v))) sanitized)
    ∅ fields.

(** ** Buffer.from(s).toString('base64')

    The two conversions of the Node runtime behind line 142: the string is
    written out in UTF-8 (a surrogate pair becomes one four-byte sequence,
    a lone surrogate becomes U+FFFD), and the bytes are then grouped by
    three into four letters of the base64 alphabet, padded with [=]. *)

Definition is_high_surrogate (u : N) : bool := (0xD800 <=? u) && (u <? 0xDC00).
Definition is_low_surrogate (u : N) : bool := (0xDC00 <=? u) && (u <? 0xE000).

Definition utf8_of_code_point (c : N) : list N :=
  if c <? 0x80 then [c]
  else if c <? 0x800 then [0xC0 + c / 64; 0x80 + c mod 64]
  else if c <? 0x10000 then
    [0xE0 + (c / 4096) mod 16; 0x80 + (c / 64) mod 64; 0x80 + c mod 64]
  else
    [0xF0 + (c / 262144) mod 8; 0x80 + (c / 4096) mod 64;
     0x80 + (c / 64) mod 64; 0x80 + c mod 64].

Definition utf8_replacement : list N := [0xEF; 0xBF; 0xBD].

Fixpoint utf8_encode (s : jsstring) : list N :=
  match s with
  | [] => []
  | u :: s' =>
      if is_high_surrogate u then
        match s' with
        | v :: s'' =>
            if is_low_surrogate v then
              utf8_of_code_point (0x10000 + (u - 0xD800) * 1024 + (v - 0xDC00))
                ++ utf8_encode s''
            else utf8_replacement ++ utf8_encode s'
        | [] => utf8_replacement
        end
      else if is_low_surrogate u then utf8_replacement ++ utf8_encode s'
      else utf8_of_code_point u ++ utf8_encode s'
  end.

Definition base64_alphabet : jsstring :=
  js "ABCDEFGHIJKLMNOPQRSTUVWXYZabcdefghijklmnopqrstuvwxyz0123456789+/".

Definition base64_char (i : N) : N := nth (N.to_nat i) base64_alphabet (ch "=").

Fixpoint base64_encode (bs : list N) : jsstring :=
  match bs with
  | [] => []
  | [a] => [base64_char (a / 4); base64_char ((a mod 4) * 16); ch "="; ch "="]
  | [a; b] =>
      [base64_char (a / 4); base64_char ((a mod 4) * 16 + b / 16);
       base64_char ((b mod 16) * 4); ch "="]
  | a :: b :: c :: rest =>
      [base64_char (a / 4); base64_char ((a mod 4) * 16 + b / 16);
       base64_char ((b mod 16) * 4 + c / 64); base64_char (c mod 64)]
        ++ base64_encode rest
  end.

Definition Buffer_from_toString_base64 (s : jsstring) : jsstring :=
  base64_encode (utf8_encode s).

(** The reader of base64 text, against which the writer is checked. *)
Fixpoint index_of (x : N) (l : list N) : option N :=
  match l with
  | [] => None
  | y :: l' => if x =? y then Some 0 else N.succ <$> index_of x l'
  end.

Definition base64_value (c : N) : option N := index_of c base64_alphabet.

Fixpoint base64_decode (s : jsstring) : option (list N) :=
  match s with
  | [] => Some []
  | c0 :: c1 :: c2 :: c3 :: rest =>
      match base64_value c0, base64_value c1 with
      | Some v0, Some v1 =>
          if (c2 =? ch "=") && (c3 =? ch "=") then
            match rest with
            | [] => Some [v0 * 4 + v1 / 16]
            | _ :: _ => None
            end
          else
            match base64_value c2 with
            | Some v2 =>
                if c3 =? ch "=" then
                  match rest with
                  | [] => Some [v0 * 4 + v1 / 16; (v1 mod 16) * 16 + v2 / 4]
                  | _ :: _ => None
                  end
                else
                  match base64_value c3, base64_decode rest with
                  | Some v3, Some bs =>
                      Some (v0 * 4 + v1 / 16 :: (v1 mod 16) * 16 + v2 / 4
                              :: (v2 mod 4) * 64 + v3 :: bs)
                  | _, _ => None
                  end
            | None => None
            end
      | _, _ => None
      end
  | _ => None
  end.

(** The reader of UTF-8, against which the writer is checked, and the
    strings it gives back: those in which every surrogate is paired. *)
Definition utf16_of_code_point (c : N) : jsstring :=
  if c <? 0x10000 then [c]
  else [0xD800 + (c - 0x10000) / 1024; 0xDC00 + (c - 0x10000) mod 1024].

Fixpoint utf8_decode (bs : list N) : option jsstring :=
  match bs with
  | [] => Some []
  | b0 :: bs1 =>
      if b0 <? 0x80 then cons b0 <$> utf8_decode bs1
      else if b0 <? 0xC0 then None
      else if b0 <? 0xE0 then
        match bs1 with
        | b1 :: bs2 =>
            app (utf16_of_code_point ((b0 - 0xC0) * 64 + (b1 - 0x80)))
              <$> utf8_decode bs2
        | _ => None
        end
      else if b0 <? 0xF0 then
        match bs1 with
        | b1 :: b2 :: bs3 =>
            app (utf16_of_code_point
                   ((b0 - 0xE0) * 4096 + (b1 - 0x80) * 64 + (b2 - 0x80)))
              <$> utf8_decode bs3
        | _ => None
        end
      else
        match bs1 with
        | b1 :: b2 :: b3 :: bs4 =>
            app (utf16_of_code_point
                   ((b0 - 0xF0) * 262144 + (b1 - 0x80) * 4096
                    + (b2 - 0x80) * 64 + (b3 - 0x80)))
              <$> utf8_decode bs4
        | _ => None
        end
  end.

Fixpoint well_formed (s : jsstring) : bool :=
  match s with
  | [] => true
  | u :: s' =>
      if is_high_surrogate u then
        match s' with
        | v :: s'' => is_low_surrogate v && well_formed s''
        | [] => false
        end
      else negb (is_low_surrogate u) && (u <? 0x10000) && well_formed s'
  end.

(** ** The world around the handler

    What the handler exchanges with formidable, JSZip and Octokit.  A
    promise is represented by what it settles to: [inl e] for a rejection
    with the error [e], [inr v] for the value [v]. *)

Record JsError : Type := { err_message : jsstring }.

Record Response : Type := { body : jsstring; status : N }.

Record Identity : Type := { name : jsstring; email : jsstring }.

(** The argument object of [octokit.repos.createOrUpdateFileContents]. *)
Record PublishParams : Type := {
  owner : JsValue;
  repo : JsValue;
  path : jsstring;
  message : jsstring;
  content : jsstring;
  committer : Identity;
  author : Identity
}.

(** An entry of a loaded archive: its [dir] flag and what
    [async('string')] settles to. *)
Record ZipObject : Type := { dir : bool; async_string : JsError + jsstring }.

(** An uploaded file: what [await zipFile.arrayBuffer()] comes to, the
    error that the call throws or rejects with, or the bytes. *)
Record File : Type := { arrayBuffer : JsError + list N }.

(** The object [{ path, content }] built on line 126. *)
Record ExtractedFile : Type := { file_path : jsstring; file_content : jsstring }.

(** A request: its method, and what [form.parse(request)] settles to,
    the pair [[fields, files]]. *)
Record Request : Type := {
  method : jsstring;
  form_parse : JsError + (gmap jsstring JsValue * gmap jsstring (list File))
}.

(** The collaborators: the hosting service with a state of its own, whose
    create-or-update call answers [None] when it resolves and [Some e]
    when it rejects; JSZip's [loadAsync], which rejects or hands over the
    entries in the order [forEach] visits them; and the [TypeError] the
    engine throws on reading a property of [undefined]. *)
Record Env : Type := {
  Remote : Type;
  createOrUpdateFileContents : PublishParams -> Remote -> option JsError * Remote;
  loadAsync : list N -> JsError + list (jsstring * ZipObject);
  TypeError_undefined : jsstring -> JsError
}.

(** What an observer of the collaborators sees, in the order it happens. *)
Inductive Event : Type :=
  | EvArrayBuffer
  | EvLoadAsync (zipData : list N)
  | EvAsyncString (relativePath : jsstring)
  | EvExtracted (relativePath : jsstring)
  | EvPublishCall (p : PublishParams)
  | EvPublishSettled (r : option JsError).

Record World (env : Env) : Type := { remote : Remote env; trace : list Event }.
Arguments remote {env} _.
Arguments trace {env} _.

(** Computations that read and change the world and may throw. *)
Definition M (env : Env) (A : Type) : Type := World env -> (JsError + A) * World env.

Definition ret {env : Env} {A : Type} (a : A) : M env A := fun w => (inr a, w).

Definition throw {env : Env} {A : Type} (e : JsError) : M env A := fun w => (inl e, w).

Definition bind {env : Env} {A B : Type} (m : M env A) (k : A -> M env B) : M env B :=
  fun w =>
    match m w with
    | (inl e, w') => (inl e, w')
    | (inr a, w') => k a w'
    end.

Notation "x <- m ;; k" := (bind m (fun x => k))
  (at level 100, m at next level, k at level 200, right associativity).

Definition try_catch {env : Env} {A : Type} (m : M env A) (handler : JsError -> M env A)
    : M env A :=
  fun w =>
    match m w with
    | (inl e, w') => handler e w'
    | (inr a, w') => (inr a, w')
    end.

(** The world with the events [evs] added to what was observed so far. *)
Definition log {env : Env} (w : World env) (evs : list Event) : World env :=
  {| remote := remote w; trace := trace w ++ evs |}.

Definition emit {env : Env} (ev : Event) : M env unit :=
  fun w => (inr tt, log w [ev]).

(** [await p] for a promise that is settled already. *)
Definition await {env : Env} {A : Type} (p : JsError + A) : M env A :=
  match p with
  | inl e => throw e
  | inr a => ret a
  end.

(** [await octokit.repos.createOrUpdateFileContents(p)] *)
Definition await_createOrUpdateFileContents {env : Env} (p : PublishParams) : M env unit :=
  fun w =>
    let '(r, remote') := createOrUpdateFileContents env p (remote w) in
    let w' := {| remote := remote';
                 trace := trace w ++ [EvPublishCall p; EvPublishSettled r] |} in
    match r with
    | Some e => (inl e, w')
    | None => (inr tt, w')
    end.

(** ** handleDeployRequest (src/index.js, lines 101-160) *)

(** [obj[key]] on an object read as a finite map. *)
Definition get_property (obj : gmap jsstring JsValue) (key : jsstring) : JsValue :=
  default VUndefined (obj !! key).

(** [!v] *)
Definition not_ (v : JsValue) : bool :=
  match v with
  | VUndefined => true
  | VStr [] => true
  | VStr (_ :: _) => false
  | VArr _ => false
  end.

(** [files['file'][0]]: reading [0] of [undefined] throws. *)
Definition files_file_0 {env : Env} (files : gmap jsstring (list File)) : M env (option File) :=
  match files !! js "file" with
  | None => throw (TypeError_undefined env (js "0"))
  | Some l => ret (head l)
  end.

(** [!username || !repoName || !files['file'][0]], left to right. *)
Definition incomplete {env : Env} (username repoName : JsValue)
    (files : gmap jsstring (list File)) : M env bool :=
  if not_ username then ret true
  else if not_ repoName then ret true
  else f <- files_file_0 files ;; ret (negb (bool_decide (is_Some f))).

(** [zipEntry.async('string').then(content => ({ path: relativePath, content }))] *)
Definition async_then (relativePath : jsstring) (zipEntry : ZipObject)
    : JsError + ExtractedFile :=
  match async_string zipEntry with
  | inl e => inl e
  | inr content_ => inr {| file_path := relativePath; file_content := content_ |}
  end.

(** Lines 122-132: the callback of [forEach] starts one decompression per
    entry that is not a directory and keeps its promise. *)
Fixpoint forEach_push {env : Env} (entries : list (jsstring * ZipObject))
    : M env (list (JsError + ExtractedFile)) :=
  match entries with
  | [] => ret []
  | (relativePath, zipEntry) :: entries' =>
      if negb (dir zipEntry) then
        _ <- emit (EvAsyncString relativePath) ;;
        filePromises <- forEach_push entries' ;;
        ret (async_then relativePath zipEntry :: filePromises)
      else forEach_push entries'
  end.

(** Line 134, [await Promise.all(filePromises)]: every promise has to
    resolve; a rejection is thrown.  Rejections are taken in the order of
    the array. *)
Fixpoint Promise_all {env : Env} (filePromises : list (JsError + ExtractedFile))
    : M env (list ExtractedFile) :=
  match filePromises with
  | [] => ret []
  | inl e :: _ => throw e
  | inr file :: filePromises' =>
      _ <- emit (EvExtracted (file_path file)) ;;
      files <- Promise_all filePromises' ;;
      ret (file :: files)
  end.

Definition PaongDev : Identity :=
  {| name := js "PaongDev"; email := js "paongdev@example.com" |}.

(** The argument object of lines 137-151. *)
Definition publish_params (username repoName : JsValue) (file : ExtractedFile)
    : PublishParams :=
  {| owner := username;
     repo := repoName;
     path := file_path file;
     message := js "Menambahkan file " ++ file_path file ++ js " via PaongDev";
     content := Buffer_from_toString_base64 (file_content file);
     committer := PaongDev;
     author := PaongDev |}.

(** Lines 136-152, [for (const file of extractedFiles) { await ... }]. *)
Fixpoint publish_loop {env : Env} (username repoName : JsValue)
    (extractedFiles : list ExtractedFile) : M env unit :=
  match extractedFiles with
  | [] => ret tt
  | file :: rest =>
      _ <- await_createOrUpdateFileContents (publish_params username repoName file) ;;
      publish_loop username repoName rest
  end.

(** Lines 122-134: the archive reader. *)
Definition read_archive {env : Env} (loadedZip : list (jsstring * ZipObject))
    : M env (list ExtractedFile) :=
  filePromises <- forEach_push loadedZip ;;
  Promise_all filePromises.

(** Lines 118-154: from the uploaded file to the answer. *)
Definition deploy_archive {env : Env} (username repoName : JsValue) (zipFile : File)
    : M env Response :=
  _ <- emit EvArrayBuffer ;;
  zipData <- await (arrayBuffer zipFile) ;;
  _ <- emit (EvLoadAsync zipData) ;;
  loadedZip <- await (loadAsync env zipData) ;;
  extractedFiles <- read_archive loadedZip ;;
  _ <- publish_loop username repoName extractedFiles ;;
  ret {| body := js "Proyek berhasil di-deploy!"; status := 200 |}.

(** Lines 110-154, the body of [try]. *)
Definition deploy_body {env : Env} (fields : gmap jsstring JsValue)
    (files : gmap jsstring (list File)) : M env Response :=
  let sanitizedFields := sanitizeInput fields in
  let username := get_property sanitizedFields (js "username") in
  let repoName := get_property sanitizedFields (js "repoName") in
  missing <- incomplete username repoName files ;;
  if (missing : bool) then
    ret {| body := js "Data tidak lengkap."; status := 400 |}
  else
    zipFile <- files_file_0 files ;;
    match zipFile with
    | None => throw (TypeError_undefined env (js "arrayBuffer"))
    | Some zipFile => deploy_archive username repoName zipFile
    end.

(** Lines 156-159, the [catch] clause. *)
Definition deploy_catch {env : Env} (e : JsError) : M env Response :=
  ret {| body := js "Kesalahan deployment: " ++ err_message e; status := 500 |}.

Definition handleDeployRequest {env : Env} (request : Request) : M env Response :=
  if negb (bool_decide (method request = js "POST")) then
    ret {| body := js "Metode tidak diizinkan"; status := 405 |}
  else
    parsed <- await (form_parse request) ;;
    let (fields, files) := (parsed : _ * _) in
    try_catch (deploy_body fields files) deploy_catch.

(** ** A small world to run the handler in

    A hosting service that records the calls it accepted and rejects the
    paths on a deny list, and a JSZip that knows exactly one archive, the
    one of the end-to-end scenario: [a.txt], the directory [dir/] and
    [dir/b.txt]. *)

Definition demo_archive : list (jsstring * ZipObject) :=
  [ (js "a.txt", {| dir := false; async_string := inr (js "hello") |});
    (js "dir/", {| dir := true; async_string := inr [] |});
    (js "dir/b.txt", {| dir := false; async_string := inr (js "world") |}) ].

Definition only_directories : list (jsstring * ZipObject) :=
  [ (js "dir/", {| dir := true; async_string := inr [] |});
    (js "dir/sub/", {| dir := true; async_string := inr [] |}) ].

Definition tagged_archive : list (jsstring * ZipObject) :=
  [ (js "<b>/../x.txt", {| dir := false; async_string := inr (js "<i>hi</i>") |}) ].

Definition demo_blob : list N := [80; 75; 3; 4].
Definition tagged_blob : list N := [80; 75; 3; 4; 1].
Definition empty_blob : list N := [80; 75; 5; 6].
Definition dirs_blob : list N := [80; 75; 3; 4; 0].

Definition not_a_zip : JsError :=
  {| err_message := js "Can't find end of central directory : is this a zip file ?" |}.

Definition demo_loadAsync (zipData : list N) : JsError + list (jsstring * ZipObject) :=
  if decide (zipData = demo_blob) then inr demo_archive
  else if decide (zipData = empty_blob) then inr []
  else if decide (zipData = dirs_blob) then inr only_directories
  else if decide (zipData = tagged_blob) then inr tagged_archive
  else inl not_a_zip.

Definition demo_remote (denied : list jsstring) (p : PublishParams)
    (accepted : list PublishParams) : option JsError * list PublishParams :=
  if decide (path p ∈ denied) then (Some {| err_message := js "Conflict" |}, accepted)
  else (None, accepted ++ [p]).

Definition demo_env (denied : list jsstring) : Env :=
  {| Remote := list PublishParams;
     createOrUpdateFileContents := demo_remote denied;
     loadAsync := demo_loadAsync;
     TypeError_undefined := fun p =>
       {| err_message :=
            js "Cannot read properties of undefined (reading '" ++ p ++ js "')" |} |}.

Definition demo_world (denied : list jsstring) : World (demo_env denied) :=
  {| remote := ([] : Remote (demo_env denied)); trace := [] |}.

(** A file object whose [arrayBuffer()] resolves to its bytes, as that
    of a web [File] does. *)
Definition upload (blob : list N) : File := {| arrayBuffer := inr blob |}.

(** The file object formidable's [parse] puts under [files['file']]: a
    [PersistentFile], which has no method [arrayBuffer].  The call of
    line 119 throws a TypeError, here with the message of V8. *)
Definition not_a_function : JsError :=
  {| err_message := js "zipFile.arrayBuffer is not a function" |}.

Definition formidable_file : File := {| arrayBuffer := inl not_a_function |}.





Definition post (username repoName : jsstring) (files : gmap jsstring (list File)) : Request :=
  {| method := js "POST";
     form_parse :=
       inr ({[ js "username" := VArr [username]; js "repoName" := VArr [repoName] ]}, files) |}.

(** ** Reading the sanitizer

    [skip_tag] and [scan] say in two plain recursions what the pattern
    does; [lang] is the pattern language read as a language, with no
    order among the alternatives; [Stripped s o] says that [o] is [s]
    with matches of the tag pattern cut out and every other character
    kept in place. *)

Fixpoint skip_tag (s : jsstring) : jsstring :=
  match s with
  | [] => []
  | c :: s' => if c =? ch ">" then s' else skip_tag s'
  end.

Fixpoint scan (in_tag : bool) (s : jsstring) : jsstring :=
  match s with
  | [] => []
  | c :: s' =>
      if in_tag then scan (negb (c =? ch ">")) s'
      else if c =? ch "<" then
        match s' with
        | [] => [c]
        | d :: _ => if d =? ch ">" then c :: scan false s' else scan true s'
        end
      else c :: scan false s'
  end.

(** [lang r m rest]: [m] is in the language of [r] when [rest] is what
    follows it in the input. *)
Inductive lang : Regex -> jsstring -> jsstring -> Prop :=
  | lang_char c rest : lang (RChar c) [c] rest
  | lang_notchar c x rest : x ≠ c -> lang (RNotChar c) [x] rest
  | lang_end : lang REnd [] []
  | lang_seq r1 r2 m1 m2 rest :
      lang r1 m1 (m2 ++ rest) -> lang r2 m2 rest -> lang (RSeq r1 r2) (m1 ++ m2) rest
  | lang_alt_l r1 r2 m rest : lang r1 m rest -> lang (RAlt r1 r2) m rest
  | lang_alt_r r1 r2 m rest : lang r2 m rest -> lang (RAlt r1 r2) m rest
  | lang_opt_none r rest : lang (ROpt r) [] rest
  | lang_opt_some r m rest : lang r m rest -> lang (ROpt r) m rest
  | lang_plus_one r m rest : lang r m rest -> lang (RPlus r) m rest
  | lang_plus_more r m1 m2 rest :
      lang r m1 (m2 ++ rest) -> lang (RPlus r) m2 rest -> lang (RPlus r) (m1 ++ m2) rest.

Inductive Stripped : jsstring -> jsstring -> Prop :=
  | Stripped_nil : Stripped [] []
  | Stripped_keep c s o : Stripped s o -> Stripped (c :: s) (c :: o)
  | Stripped_cut m s o : lang tag_pattern m s -> Stripped s o -> Stripped (m ++ s) o.

(** No part of [o] is a match of the tag pattern. *)
Definition tag_free (o : jsstring) : Prop :=
  forall pre m rest, o = pre ++ m ++ rest -> ~ lang tag_pattern m rest.

(** Every [<] of [o] is its last character or is followed by [>]. *)
Fixpoint settled (o : jsstring) : Prop :=
  match o with
  | [] => True
  | c :: o' =>
      match o' with
      | [] => True
      | d :: _ => c = ch "<" -> d = ch ">"
      end /\ settled o'
  end.

(** What the loop of [sanitizeInput] does to one value. *)
Definition sanitize_value (v : JsValue) : JsValue := VStr (strip_tags (String_of v)).

(** ** Reading a run

    The vocabulary the statements about the handler are written in. *)

(** The entries of an archive that are not directories, in its order. *)
Definition file_entries (loadedZip : list (jsstring * ZipObject))
    : list (jsstring * ZipObject) :=
  filter (fun entry => dir entry.2 = false) loadedZip.

(** [file] is what reading the entry [entry] gives: the entry's name as
    it is, and the text its decompression resolved to. *)
Definition read_from (entry : jsstring * ZipObject) (file : ExtractedFile) : Prop :=
  file_path file = entry.1 /\ async_string entry.2 = inr (file_content file).

(** The events of reading an archive whose files are [files]. *)
Definition reading (files : list ExtractedFile) : list Event :=
  map EvAsyncString (map file_path files) ++ map EvExtracted (map file_path files).

(** The events of calls that resolved one after the other. *)
Definition calls_ok (ps : list PublishParams) : list Event :=
  flat_map (fun p => [EvPublishCall p; EvPublishSettled None]) ps.

(** The calls issued in a trace, in order. *)
Definition published (t : list Event) : list PublishParams :=
  flat_map (fun ev => match ev with EvPublishCall p => [p] | _ => [] end) t.


(** The state of the service once the calls [ps] have resolved one after
    the other; [None] when one of them is rejected. *)
Fixpoint accepts (env : Env) (ps : list PublishParams) (r : Remote env)
    : option (Remote env) :=
  match ps with
  | [] => Some r
  | p :: ps' =>
      match createOrUpdateFileContents env p r with
      | (None, r') => accepts env ps' r'
      | (Some _, _) => None
      end
  end.

(** The request is a POST whose form parsed, whose [username] and
    [repoName] are not empty after sanitization, and whose first uploaded
    file hands over the bytes [zipData]. *)
Record Submitted (request : Request) (username repoName : JsValue)
    (zipData : list N) : Prop := {
  submitted_method : method request = js "POST";
  submitted_form : exists fields files zipFile others,
    form_parse request = inr (fields, files) /\
    username = get_property (sanitizeInput fields) (js "username") /\
    repoName = get_property (sanitizeInput fields) (js "repoName") /\
    files !! js "file" = Some (zipFile :: others) /\
    arrayBuffer zipFile = inr zipData;
  submitted_username : not_ username = false;
  submitted_repoName : not_ repoName = false
}.

(** The answers of the handler. *)
Definition deployed : Response :=
  {| body := js "Proyek berhasil di-deploy!"; status := 200 |}.

Definition failed (e : JsError) : Response :=
  {| body := js "Kesalahan deployment: " ++ err_message e; status := 500 |}.

Definition incomplete_data : Response :=
  {| body := js "Data tidak lengkap."; status := 400 |}.

(** The field [key] is absent, or its text is empty once the tags are
    stripped. *)
Definition field_empty (fields : gmap jsstring JsValue) (key : jsstring) : Prop :=
  match fields !! key with
  | None => True
  | Some v => strip_tags (String_of v) = []
  end.

Definition not_allowed : Response :=
  {| body := js "Metode tidak diizinkan"; status := 405 |}.

(** A JSZip whose only archive has a file that does not decompress. *)
Definition corrupted : JsError := {| err_message := js "Corrupted zip : CRC32 mismatch" |}.

Definition broken_archive : list (jsstring * ZipObject) :=
  [ (js "a.txt", {| dir := false; async_string := inr (js "hello") |});
    (js "b.bin", {| dir := false; async_string := inl corrupted |}) ].

Definition broken_env : Env :=
  {| Remote := list PublishParams;
     createOrUpdateFileContents := demo_remote [];
     loadAsync := fun _ => inr broken_archive;
     TypeError_undefined := fun p => {| err_message := js "TypeError" |} |}.

Definition broken_world : World broken_env :=
  {| remote := ([] : Remote broken_env); trace := [] |}.

(** ** JSON.stringify on strings

    [JSON.stringify({ key: value })] for a string [value], as the bot
    handler uses it.  A string is quoted code point by code point: the
    quotation mark, the backslash and the control characters are escaped,
    a surrogate that is not part of a pair is written as a [\u] escape,
    everything else is copied. *)

Definition hex_digits : jsstring := js "0123456789abcdef".

Definition hex_digit (d : N) : N := nth (N.to_nat d) hex_digits (ch "0").

Definition unicode_escape (u : N) : jsstring :=
  js "\u" ++ [hex_digit ((u / 4096) mod 16); hex_digit ((u / 256) mod 16);
              hex_digit ((u / 16) mod 16); hex_digit (u mod 16)].

Definition quotation_mark : N := 34.
Definition backslash : N := 92.

Definition quote_unit (u : N) : jsstring :=
  if u =? 8 then js "\b"
  else if u =? 9 then js "\t"
  else if u =? 10 then js "\n"
  else if u =? 12 then js "\f"
  else if u =? 13 then js "\r"
  else if u =? quotation_mark then [backslash; quotation_mark]
  else if u =? backslash then [backslash; backslash]
  else if u <? 32 then unicode_escape u
  else [u].

Fixpoint quote_units (s : jsstring) : jsstring :=
  match s with
  | [] => []
  | u :: s' =>
      if is_high_surrogate u then
        match s' with
        | v :: s'' =>
            if is_low_surrogate v then u :: v :: quote_units s''
            else unicode_escape u ++ quote_units s'
        | [] => unicode_escape u
        end
      else if is_low_surrogate u then unicode_escape u ++ quote_units s'
      else quote_unit u ++ quote_units s'
  end.

Definition JSON_quote (s : jsstring) : jsstring :=
  quotation_mark :: quote_units s ++ [quotation_mark].

(** [JSON.stringify({ key: value })] *)
Definition JSON_stringify_member (key value : jsstring) : jsstring :=
  js "{" ++ JSON_quote key ++ js ":" ++ JSON_quote value ++ js "}".

(** The reader of a JSON string, against which the writer is checked:
    the text between the quotation marks, with its escapes undone; a raw
    control character or a missing closing mark is an error. *)
Definition hex_value (c : N) : option N :=
  match index_of c hex_digits with
  | Some d => Some d
  | None => (fun d => d + 10) <$> index_of c (js "ABCDEF")
  end.

Definition hex4 (h1 h2 h3 h4 : N) : option N :=
  match hex_value h1, hex_value h2, hex_value h3, hex_value h4 with
  | Some d1, Some d2, Some d3, Some d4 => Some (((d1 * 16 + d2) * 16 + d3) * 16 + d4)
  | _, _, _, _ => None
  end.

Definition simple_escape (c : N) : option N :=
  if c =? ch "b" then Some 8
  else if c =? ch "t" then Some 9
  else if c =? ch "n" then Some 10
  else if c =? ch "f" then Some 12
  else if c =? ch "r" then Some 13
  else if c =? quotation_mark then Some quotation_mark
  else if c =? backslash then Some backslash
  else if c =? ch "/" then Some (ch "/")
  else None.

Fixpoint read_string_body (s : jsstring) : option jsstring :=
  match s with
  | [] => None
  | c :: rest =>
      if c =? quotation_mark then
        match rest with
        | [] => Some []
        | _ :: _ => None
        end
      else if c =? backslash then
        match rest with
        | e :: rest1 =>
            if e =? ch "u" then
              match rest1 with
              | h1 :: h2 :: h3 :: h4 :: rest2 =>
                  match hex4 h1 h2 h3 h4, read_string_body rest2 with
                  | Some u, Some t => Some (u :: t)
                  | _, _ => None
                  end
              | _ => None
              end
            else
              match simple_escape e, read_string_body rest1 with
              | Some u, Some t => Some (u :: t)
              | _, _ => None
              end
        | [] => None
        end
      else if c <? 32 then None
      else cons c <$> read_string_body rest
  end.

Definition JSON_unquote (s : jsstring) : option jsstring :=
  match s with
  | c :: body => if c =? quotation_mark then read_string_body body else None
  | [] => None
  end.

(** The reader of [{ key: value }] with a string value. *)
Fixpoint strip_prefix (pre s : jsstring) : option jsstring :=
  match pre, s with
  | [], _ => Some s
  | c :: pre', d :: s' => if c =? d then strip_prefix pre' s' else None
  | _ :: _, [] => None
  end.

Definition JSON_read_member (key body : jsstring) : option jsstring :=
  match strip_prefix (js "{" ++ JSON_quote key ++ js ":") body with
  | Some r =>
      match rev r with
      | c :: r' => if c =? ch "}" then JSON_unquote (rev r') else None
      | [] => None
      end
  | None => None
  end.

(** ** The whole site: requests, answers, services

    What the other handlers of [src/index.js] and of the stand-alone
    endpoints exchange with the language model, the visitors table and
    the clock. *)

(** A value read from JSON text.  A number is a binary64, kept as its 64
    bits: sign, eleven bits of exponent, fifty-two of mantissa. *)
#[warnings="-register-all"]
Inductive Json : Type :=
  | JNull
  | JBool (b : bool)
  | JNumber (bits : N)
  | JString (s : jsstring)
  | JArray (items : list Json)
  | JObject (members : list (jsstring * Json)).

(** The own property [key] of an object; of two members with one key the
    later one counts. *)
Fixpoint member (key : jsstring) (members : list (jsstring * Json)) : option Json :=
  match members with
  | [] => None
  | (k, v) :: rest =>
      match member key rest with
      | Some v' => Some v'
      | None => if decide (k = key) then Some v else None
      end
  end.

(** [v.prompt], for [v] other than [null]: strings, numbers, booleans and
    arrays have no such property. *)
Definition prompt_of (v : Json) : option Json :=
  match v with
  | JObject members => member (js "prompt") members
  | _ => None
  end.

(** Zero of either sign, or not a number. *)
Definition falsy_number (bits : N) : bool :=
  let magnitude := bits mod 2 ^ 63 in
  (magnitude =? 0) || (0x7FF0000000000000 <? magnitude).

(** [!v], with [None] for [undefined]. *)
Definition json_not (v : option Json) : bool :=
  match v with
  | None => true
  | Some JNull => true
  | Some (JBool b) => negb b
  | Some (JNumber bits) => falsy_number bits
  | Some (JString s) => match s with [] => true | _ :: _ => false end
  | Some (JArray _) => false
  | Some (JObject _) => false
  end.

Record HttpResponse : Type := {
  http_body : jsstring;
  http_status : N;
  content_type : option jsstring
}.

(** [new Response(body, { status })] with a string for body and no
    headers given: the runtime types the body as plain text. *)
Definition plain_response (r : Response) : HttpResponse :=
  {| http_body := body r; http_status := status r;
     content_type := Some (js "text/plain;charset=UTF-8") |}.

(** A row of the visitors table, as line 177 writes it. *)
Record Visitor : Type := {
  ip_address : option jsstring;
  user_agent : option jsstring;
  timestamp : jsstring
}.

(** What a query resolves to: [{ data, error }]. *)
Record SelectResult : Type := { data : option (list N); error : option JsError }.

(** The result of [generateContent]: what [response.text()] does. *)
Record Generated : Type := { text : JsError + jsstring }.

(** A request as the handlers see it: the method, the path that
    [new URL(request.url)] gives, what [form.parse] and [request.json()]
    settle to, the two headers read, and [request.connection] with its
    [remoteAddress], if there is one. *)
Record HttpRequest : Type := {
  http_method : jsstring;
  pathname : JsError + jsstring;
  form : JsError + (gmap jsstring JsValue * gmap jsstring (list File));
  json : JsError + Json;
  header_x_forwarded_for : option jsstring;
  header_user_agent : option jsstring;
  connection : option (option jsstring)
}.

Definition deploy_request (request : HttpRequest) : Request :=
  {| method := http_method request; form_parse := form request |}.

(** The services: the hosting service and JSZip as before; the language
    model; the visitors table, whose query takes the address and the day
    and whose insert answers with an error or none; the clock, as the
    texts its successive readings give; the error of reading a property
    of [null]; and the page. *)
Record Site : Type := {
  hosting : Env;
  Model : Type;
  generateContent : option Json -> Model -> (JsError + Generated) * Model;
  Db : Type;
  select_visitors : option jsstring -> jsstring -> Db -> SelectResult * Db;
  insert_visitor : Visitor -> Db -> option JsError * Db;
  toISOString : nat -> jsstring;
  TypeError_null : JsError;
  htmlContent : jsstring
}.

Inductive SiteEvent : Type :=
  | EvGenerateContent (prompt : option Json)
  | EvResponseText
  | EvConsoleError (label : jsstring) (e : JsError)
  | EvSelect (ip : option jsstring) (day : jsstring)
  | EvInsert (row : Visitor).

Record SiteWorld (site : Site) : Type := {
  hub : World (hosting site);
  ai : Model site;
  db : Db site;
  clock : nat;
  journal : list SiteEvent
}.
Arguments hub {site} _.
Arguments ai {site} _.
Arguments db {site} _.
Arguments clock {site} _.
Arguments journal {site} _.

Definition Act (site : Site) (A : Type) : Type :=
  SiteWorld site -> (JsError + A) * SiteWorld site.

Definition unit_ {site : Site} {A : Type} (a : A) : Act site A := fun sw => (inr a, sw).

Definition raise {site : Site} {A : Type} (e : JsError) : Act site A := fun sw => (inl e, sw).

Definition then_ {site : Site} {A B : Type} (m : Act site A) (k : A -> Act site B)
    : Act site B :=
  fun sw =>
    match m sw with
    | (inl e, sw') => (inl e, sw')
    | (inr a, sw') => k a sw'
    end.

Notation "x <-- m ;; k" := (then_ m (fun x => k))
  (at level 100, m at next level, k at level 200, right associativity).

Definition try_ {site : Site} {A : Type} (m : Act site A) (handler : JsError -> Act site A)
    : Act site A :=
  fun sw =>
    match m sw with
    | (inl e, sw') => handler e sw'
    | (inr a, sw') => (inr a, sw')
    end.

Definition settled_ {site : Site} {A : Type} (p : JsError + A) : Act site A :=
  match p with
  | inl e => raise e
  | inr a => unit_ a
  end.

Definition note {site : Site} (sw : SiteWorld site) (evs : list SiteEvent) : SiteWorld site :=
  {| hub := hub sw; ai := ai sw; db := db sw; clock := clock sw;
     journal := journal sw ++ evs |}.

Definition record_ {site : Site} (ev : SiteEvent) : Act site unit :=
  fun sw => (inr tt, note sw [ev]).

(** [new Date().toISOString()]: the next reading of the clock. *)
Definition new_Date_toISOString {site : Site} : Act site jsstring :=
  fun sw =>
    (inr (toISOString site (clock sw)),
     {| hub := hub sw; ai := ai sw; db := db sw; clock := S (clock sw);
        journal := journal sw |}).

(** [await model.generateContent(prompt)] *)
Definition await_generateContent {site : Site} (prompt : option Json) : Act site Generated :=
  fun sw =>
    let '(r, ai') := generateContent site prompt (ai sw) in
    (r, {| hub := hub sw; ai := ai'; db := db sw; clock := clock sw;
           journal := journal sw ++ [EvGenerateContent prompt] |}).

(** [response.text()] *)
Definition response_text {site : Site} (g : Generated) : Act site jsstring :=
  _ <-- record_ EvResponseText ;; settled_ (text g).

(** [await supabase.from('visitors').select('id').eq('ip_address', ip).gte('timestamp', day)] *)
Definition await_select {site : Site} (ip : option jsstring) (day : jsstring)
    : Act site SelectResult :=
  fun sw =>
    let '(r, db') := select_visitors site ip day (db sw) in
    (inr r, {| hub := hub sw; ai := ai sw; db := db'; clock := clock sw;
               journal := journal sw ++ [EvSelect ip day] |}).

(** [await supabase.from('visitors').insert(row)]: the [error] of what it
    resolves to. *)
Definition await_insert {site : Site} (row : Visitor) : Act site (option JsError) :=
  fun sw =>
    let '(r, db') := insert_visitor site row (db sw) in
    (inr r, {| hub := hub sw; ai := ai sw; db := db'; clock := clock sw;
               journal := journal sw ++ [EvInsert row] |}).

(** A handler of the hosting part, run on its part of the world. *)
Definition on_hub {site : Site} {A : Type} (m : M (hosting site) A) : Act site A :=
  fun sw =>
    let '(r, w') := m (hub sw) in
    (r, {| hub := w'; ai := ai sw; db := db sw; clock := clock sw;
           journal := journal sw |}).

(** A call whose promise nobody awaits: what it does is done, what it
    settles to is dropped, a rejection included. *)
Definition detached {site : Site} {A : Type} (m : Act site A) : Act site unit :=
  fun sw => (inr tt, (m sw).2).

(** ** handleBotRequest (src/index.js, lines 74-99) *)

Definition application_json : option jsstring := Some (js "application/json").

Definition json_response (key value : jsstring) (code : N) : HttpResponse :=
  {| http_body := JSON_stringify_member key value;
     http_status := code;
     content_type := application_json |}.

(** [const { prompt } = await request.json()]: taking a property of
    [null] throws. *)
Definition destructure_prompt {site : Site} (v : Json) : Act site (option Json) :=
  match v with
  | JNull => raise (TypeError_null site)
  | _ => unit_ (prompt_of v)
  end.

Definition handleBotRequest {site : Site} (request : HttpRequest) : Act site HttpResponse :=
  v <-- settled_ (json request) ;;
  prompt <-- destructure_prompt v ;;
  if json_not prompt then
    unit_ (json_response (js "error") (js "Prompt tidak boleh kosong.") 400)
  else
    try_
      (result <-- await_generateContent prompt ;;
       text_ <-- response_text result ;;
       unit_ (json_response (js "response") text_ 200))
      (fun e =>
         _ <-- record_ (EvConsoleError (js "Kesalahan AI:") e) ;;
         unit_ (json_response (js "error")
                  (js "Terjadi kesalahan saat menghubungi bot.") 500)).

(** The stand-alone endpoint (src/api/bot-ai.js, lines 10-39): the same,
    behind a check of the method. *)
Definition bot_endpoint {site : Site} (request : HttpRequest) : Act site HttpResponse :=
  if negb (bool_decide (http_method request = js "POST")) then
    unit_ (plain_response {| body := js "Metode tidak diizinkan"; status := 405 |})
  else handleBotRequest request.

(** ** handleVisitorTracking (src/index.js, lines 162-183) *)

(** [request.headers.get('x-forwarded-for') || request.connection.remoteAddress] *)
Definition visitor_ip {site : Site} (request : HttpRequest) : Act site (option jsstring) :=
  match header_x_forwarded_for request with
  | Some (c :: forwarded) => unit_ (Some (c :: forwarded))
  | _ =>
      match connection request with
      | None => raise (TypeError_undefined (hosting site) (js "remoteAddress"))
      | Some remoteAddress => unit_ remoteAddress
      end
  end.

(** [!data || data.length === 0] *)
Definition no_rows (d : option (list N)) : bool :=
  match d with
  | None => true
  | Some [] => true
  | Some (_ :: _) => false
  end.

Definition handleVisitorTracking {site : Site} (request : HttpRequest) : Act site unit :=
  ip <-- visitor_ip request ;;
  let userAgent := header_user_agent request in
  today <-- new_Date_toISOString ;;
  selected <-- await_select ip (take 10 today) ;;
  if no_rows (data selected) then
    now <-- new_Date_toISOString ;;
    insertError <-- await_insert
      {| ip_address := ip; user_agent := userAgent; timestamp := now |} ;;
    match insertError with
    | Some e => record_ (EvConsoleError (js "Gagal melacak pengunjung:") e)
    | None => unit_ tt
    end
  else unit_ tt.

(** The stand-alone page (src/api/bot-ai.js, lines 49-65): the same
    without a look at what the insert resolved to. *)
Definition handleVisitorTracking_page {site : Site} (request : HttpRequest) : Act site unit :=
  ip <-- visitor_ip request ;;
  let userAgent := header_user_agent request in
  today <-- new_Date_toISOString ;;
  selected <-- await_select ip (take 10 today) ;;
  if no_rows (data selected) then
    now <-- new_Date_toISOString ;;
    _ <-- await_insert
      {| ip_address := ip; user_agent := userAgent; timestamp := now |} ;;
    unit_ tt
  else unit_ tt.

(** ** serveWebsite and handleRequest (src/index.js, lines 32-47, 189-366) *)

Definition serveWebsite {site : Site} (request : HttpRequest) : Act site HttpResponse :=
  _ <-- detached (handleVisitorTracking request) ;;
  unit_ {| http_body := htmlContent site; http_status := 200;
           content_type := Some (js "text/html") |}.

Definition handleRequest {site : Site} (request : HttpRequest) : Act site HttpResponse :=
  path_ <-- settled_ (pathname request) ;;
  if bool_decide (path_ = js "/api/bot-ai") then handleBotRequest request
  else if bool_decide (path_ = js "/api/deploy") then
    response <-- on_hub (handleDeployRequest (deploy_request request)) ;;
    unit_ (plain_response response)
  else serveWebsite request.

(** ** A small site to run the other handlers in

    A model that echoes a string prompt and fails on any other; a
    visitors table kept as the list of its rows, whose query gives the
    rows of the address stamped on or after the day; a clock read three
    times on one day and then on the next. *)

Fixpoint str_le (a b : jsstring) : bool :=
  match a, b with
  | [], _ => true
  | _ :: _, [] => false
  | x :: a', y :: b' => if x <? y then true else if x =? y then str_le a' b' else false
  end.

Definition demo_generate (prompt : option Json) (calls : nat)
    : (JsError + Generated) * nat :=
  match prompt with
  | Some (JString s) => (inr {| text := inr (js "Echo: " ++ s) |}, S calls)
  | Some (JArray _) => (inr {| text := inl {| err_message := js "blocked" |} |}, S calls)
  | _ => (inl {| err_message := js "API key not valid" |}, S calls)
  end.

Definition demo_select (ip : option jsstring) (day : jsstring) (rows : list Visitor)
    : SelectResult * list Visitor :=
  ({| data := Some (map (fun _ => 1)
                      (filter (fun row => ip_address row = ip /\ str_le day (timestamp row) = true)
                         rows));
      error := None |}, rows).

Definition demo_insert (row : Visitor) (rows : list Visitor)
    : option JsError * list Visitor :=
  (None, rows ++ [row]).

Definition demo_clock (n : nat) : jsstring :=
  match n with
  | 0%nat => js "2024-05-01T08:00:00.000Z"
  | 1%nat => js "2024-05-01T08:00:00.120Z"
  | 2%nat => js "2024-05-01T17:30:00.000Z"
  | _ => js "2024-05-02T00:00:01.000Z"
  end.

Definition demo_site : Site :=
  {| hosting := demo_env [];
     Model := nat;
     generateContent := demo_generate;
     Db := list Visitor;
     select_visitors := demo_select;
     insert_visitor := demo_insert;
     toISOString := demo_clock;
     TypeError_null := {| err_message := js "Cannot destructure property 'prompt'" |};
     htmlContent := js "<!DOCTYPE html>" |}.

Definition demo_start : SiteWorld demo_site :=
  @Build_SiteWorld demo_site (demo_world []) 0%nat [] 0%nat [].

Definition visit (forwarded : option jsstring) (remote_ : option (option jsstring))
    : HttpRequest :=
  {| http_method := js "GET";
     pathname := inr (js "/");
     form := inl {| err_message := js "no form" |};
     json := inl {| err_message := js "Unexpected end of JSON input" |};
     header_x_forwarded_for := forwarded;
     header_user_agent := Some (js "curl/8.0");
     connection := remote_ |}.

Definition ask (method_ : jsstring) (body_ : JsError + Json) : HttpRequest :=
  {| http_method := method_;
     pathname := inr (js "/api/bot-ai");
     form := inl {| err_message := js "no form" |};
     json := body_;
     header_x_forwarded_for := None;
     header_user_agent := None;
     connection := None |}.

(** A site whose visitors table is out of reach: every query resolves
    to no data and an error, every insert to an error. *)
Definition unreachable : JsError := {| err_message := js "fetch failed" |}.

Definition down_site : Site :=
  {| hosting := demo_env [];
     Model := nat;
     generateContent := demo_generate;
     Db := list Visitor;
     select_visitors := fun _ _ rows => ({| data := None; error := Some unreachable |}, rows);
     insert_visitor := fun _ rows => (Some unreachable, rows);
     toISOString := demo_clock;
     TypeError_null := {| err_message := js "Cannot destructure property 'prompt'" |};
     htmlContent := js "<!DOCTYPE html>" |}.

Definition down_start : SiteWorld down_site :=
  @Build_SiteWorld down_site (demo_world []) 0%nat [] 0%nat [].

(** ** Reading a visit *)

(** The table keeps what was written to it: right after a row went in, a
    query for its address and the day of its stamp finds a row. *)
Definition ReadYourWrites (site : Site) : Prop :=
  forall (row : Visitor) (d d' : Db site),
    insert_visitor site row d = (None, d') ->
    no_rows (data (select_visitors site (ip_address row) (take 10 (timestamp row)) d').1)
      = false.

(** The rows written and the queries made in a stretch of the journal,
    and the stretch without what went to the console. *)
Definition written (evs : list SiteEvent) : list Visitor :=
  flat_map (fun ev => match ev with EvInsert row => [row] | _ => [] end) evs.

Definition queried (evs : list SiteEvent) : list (option jsstring * jsstring) :=
  flat_map (fun ev => match ev with EvSelect ip day => [(ip, day)] | _ => [] end) evs.

Definition off_console (evs : list SiteEvent) : list SiteEvent :=
  flat_map (fun ev => match ev with EvConsoleError _ _ => [] | _ => [ev] end) evs.

(** The address a visit is counted under, when there is one. *)
Definition address_of (request : HttpRequest) : option (option jsstring) :=
  match header_x_forwarded_for request with
  | Some (c :: forwarded) => Some (Some (c :: forwarded))
  | _ => connection request
  end.

Definition page {site : Site} : HttpResponse :=
  {| http_body := htmlContent site; http_status := 200;
     content_type := Some (js "text/html") |}.

(** The answer of the bot handler when the model failed. *)
Definition bot_failed : HttpResponse :=
  json_response (js "error") (js "Terjadi kesalahan saat menghubungi bot.") 500.

(** * Properties *)

(** ** The matcher is sound for the language *)

Lemma or_else_Some a b x :
  or_else a b = Some x -> a = Some x \/ (a = None /\ b = Some x).
Proof. destruct a; simpl; intros; [left | right]; auto. Qed.

Lemma plus_loop_sound (m : Matcher) (r : Regex) :
  (forall s k x, m s k = Some x ->
     exists mt rest, s = mt ++ rest /\ lang r mt rest /\ k rest = Some x) ->
  forall fuel s k x, plus_loop m k fuel s = Some x ->
     exists mt rest, s = mt ++ rest /\ lang (RPlus r) mt rest /\ k rest = Some x.
Proof.
  intros Hm fuel. induction fuel as [|n IH]; intros s k x H; [discriminate|].
  simpl in H. apply Hm in H as (m1 & rest1 & -> & L1 & H).
  apply or_else_Some in H as [H | [_ H]].
  - apply IH in H as (m2 & rest & -> & L2 & H).
    exists (m1 ++ m2), rest. rewrite <- app_assoc. eauto using lang.
  - exists m1, rest1. eauto using lang.
Qed.

Lemma rmatch_sound r : forall s k x,
  rmatch r s k = Some x ->
  exists mt rest, s = mt ++ rest /\ lang r mt rest /\ k rest = Some x.
Proof.
  induction r as [c|c| |r1 IH1 r2 IH2|r1 IH1 r2 IH2|r1 IH1|r1 IH1]; intros s k x H; simpl in H.
  - destruct s as [|y s']; [discriminate|].
    destruct (N.eqb_spec y c) as [->|]; [|discriminate].
    exists [c], s'. split; [reflexivity|]. split; [constructor | exact H].
  - destruct s as [|y s']; [discriminate|].
    destruct (N.eqb_spec y c) as [|Hne]; [discriminate|].
    exists [y], s'. split; [reflexivity|]. split; [by constructor | exact H].
  - destruct s; [|discriminate]. exists [], []. split; [reflexivity|].
    split; [constructor | exact H].
  - apply IH1 in H as (m1 & rest1 & -> & L1 & H).
    apply IH2 in H as (m2 & rest & -> & L2 & H).
    exists (m1 ++ m2), rest. rewrite <- app_assoc.
    split; [reflexivity|]. split; [by constructor | exact H].
  - apply or_else_Some in H as [H | [_ H]].
    + apply IH1 in H as (m1 & rest & -> & L & H).
      exists m1, rest. split; [reflexivity|]. split; [by apply lang_alt_l | exact H].
    + apply IH2 in H as (m1 & rest & -> & L & H).
      exists m1, rest. split; [reflexivity|]. split; [by apply lang_alt_r | exact H].
  - apply or_else_Some in H as [H | [_ H]].
    + apply IH1 in H as (m1 & rest & -> & L & H).
      exists m1, rest. split; [reflexivity|]. split; [by apply lang_opt_some | exact H].
    + exists [], s. split; [reflexivity|]. split; [apply lang_opt_none | exact H].
  - exact (plus_loop_sound (rmatch r1) r1 IH1 (S (length s)) s k x H).
Qed.

Lemma exec_sound r s rest :
  exec r s = Some rest -> exists mt, s = mt ++ rest /\ lang r mt rest.
Proof.
  intros H. apply rmatch_sound in H as (mt & rest' & -> & L & H).
  injection H as ->. eauto.
Qed.

(** ** What the tag pattern matches *)

Arguments ch : simpl never.

Lemma plus_loop_tag_body fuel s :
  (length s < fuel)%nat ->
  plus_loop (rmatch (RNotChar (ch ">")))
    (fun s3 => rmatch (RAlt (RChar (ch ">")) REnd) s3 Some) fuel s
  = match s with
    | [] => None
    | x :: s' => if x =? ch ">" then None else Some (skip_tag s')
    end.
Proof.
  revert fuel. induction s as [|x s' IH]; intros [|n] Hlen; simpl in Hlen; try lia.
  - reflexivity.
  - cbn [plus_loop rmatch]. destruct (x =? ch ">"); [reflexivity|].
    rewrite IH by lia.
    destruct s' as [|y s'']; [reflexivity|].
    cbn [skip_tag or_else rmatch]. destruct (y =? ch ">"); reflexivity.
Qed.

Lemma rmatch_seq r1 r2 s k :
  rmatch (RSeq r1 r2) s k = rmatch r1 s (fun s' => rmatch r2 s' k).
Proof. reflexivity. Qed.

Lemma rmatch_char c x s k :
  rmatch (RChar c) (x :: s) k = if x =? c then k s else None.
Proof. reflexivity. Qed.

Lemma rmatch_opt r s k : rmatch (ROpt r) s k = or_else (rmatch r s k) (k s).
Proof. reflexivity. Qed.

Lemma rmatch_tag_tail s :
  rmatch (RSeq (RPlus (RNotChar (ch ">"))) (RAlt (RChar (ch ">")) REnd)) s Some
  = match s with
    | [] => None
    | x :: s' => if x =? ch ">" then None else Some (skip_tag s')
    end.
Proof. exact (plus_loop_tag_body (S (length s)) s (Nat.lt_succ_diag_r _)). Qed.

(** A match starts at a [<] that is followed by a character other than
    [>], and runs through the next [>], or to the end of the input when
    there is none. *)
Lemma exec_tag_pattern s :
  exec tag_pattern s =
  match s with
  | c :: d :: t =>
      if (c =? ch "<") && negb (d =? ch ">") then Some (skip_tag t) else None
  | _ => None
  end.
Proof.
  unfold exec, tag_pattern. rewrite rmatch_seq.
  destruct s as [|c s1]; [reflexivity|].
  rewrite rmatch_char. destruct (c =? ch "<"); cbn [andb].
  2:{ destruct s1; reflexivity. }
  rewrite rmatch_seq, rmatch_opt, rmatch_tag_tail.
  destruct s1 as [|d t]; [reflexivity|].
  rewrite rmatch_char, rmatch_tag_tail.
  destruct (N.eqb_spec d (ch "/")) as [->|Hd].
  - change (ch "/" =? ch ">") with false. cbn [negb].
    destruct t as [|x t']; [reflexivity|].
    cbn [skip_tag or_else]. destruct (x =? ch ">"); reflexivity.
  - cbn [or_else]. destruct (d =? ch ">"); reflexivity.
Qed.

Lemma skip_tag_length s : (length (skip_tag s) <= length s)%nat.
Proof.
  induction s as [|c s IH]; simpl; [lia|]. destruct (c =? ch ">"); lia.
Qed.

Lemma scan_in_tag s : scan true s = scan false (skip_tag s).
Proof.
  induction s as [|c s IH]; [reflexivity|].
  cbn [scan skip_tag]. destruct (c =? ch ">"); [reflexivity | exact IH].
Qed.

Lemma replace_loop_scan fuel : forall s,
  (length s < fuel)%nat -> replace_loop fuel tag_pattern s = scan false s.
Proof.
  induction fuel as [|n IH]; intros s Hlen; [lia|].
  cbn [replace_loop]. rewrite exec_tag_pattern.
  destruct s as [|c [|d t]].
  - reflexivity.
  - simpl in Hlen. cbn [scan]. rewrite (IH []) by (simpl; lia).
    destruct (c =? ch "<"); reflexivity.
  - simpl in Hlen. cbn [scan].
    destruct (c =? ch "<"); cbn [andb].
    + destruct (d =? ch ">"); cbn [negb].
      * rewrite IH by (simpl; lia). reflexivity.
      * pose proof (skip_tag_length t).
        destruct (Nat.ltb_spec (length (skip_tag t)) (length (c :: d :: t))) as [_|Hge];
          [|simpl in Hge; lia].
        rewrite IH by lia. rewrite scan_in_tag. cbn [skip_tag].
        destruct (N.eqb_spec d (ch ">")) as [->|_]; [|reflexivity].
        reflexivity.
    + rewrite IH by (simpl; lia). reflexivity.
Qed.

Lemma strip_tags_scan s : strip_tags s = scan false s.
Proof. apply replace_loop_scan. lia. Qed.

(** ** What is left after stripping *)

Lemma scan_settled s : forall in_tag, settled (scan in_tag s).
Proof.
  induction s as [|c s IH]; intros in_tag; [exact I|].
  cbn [scan]. destruct in_tag; [apply IH|].
  destruct (N.eqb_spec c (ch "<")) as [->|Hc].
  - destruct s as [|d t]; [split; exact I|].
    destruct (N.eqb_spec d (ch ">")) as [->|Hd]; [|apply IH].
    split; [|apply IH]. cbn [scan].
    change (ch ">" =? ch "<") with false. cbn iota. intros _. reflexivity.
  - split; [|apply IH]. destruct (scan false s); [exact I | intros; contradiction].
Qed.

Lemma scan_fixed o : settled o -> scan false o = o.
Proof.
  induction o as [|c o IH]; [reflexivity|]. intros [Hc Ho].
  cbn [scan]. destruct (N.eqb_spec c (ch "<")) as [->|_].
  - destruct o as [|d t]; [reflexivity|].
    rewrite (Hc eq_refl). rewrite N.eqb_refl. rewrite <- (Hc eq_refl).
    f_equal. apply IH, Ho.
  - f_equal. apply IH, Ho.
Qed.

Lemma strip_tags_idempotent s : strip_tags (strip_tags s) = strip_tags s.
Proof. rewrite !strip_tags_scan. apply scan_fixed, scan_settled. Qed.

Lemma settled_middle pre d rest : settled (pre ++ ch "<" :: d :: rest) -> d = ch ">".
Proof.
  induction pre as [|c pre IH]; intros [H1 H2]; [exact (H1 eq_refl) | exact (IH H2)].
Qed.

Lemma lang_seq_inv r1 r2 m rest :
  lang (RSeq r1 r2) m rest ->
  exists m1 m2, m = m1 ++ m2 /\ lang r1 m1 (m2 ++ rest) /\ lang r2 m2 rest.
Proof. inversion 1; subst; eauto. Qed.

Lemma lang_char_inv c m rest : lang (RChar c) m rest -> m = [c].
Proof. inversion 1; subst; reflexivity. Qed.

Lemma lang_opt_inv r m rest : lang (ROpt r) m rest -> m = [] \/ lang r m rest.
Proof. inversion 1; subst; auto. Qed.

Lemma lang_notchar_inv c m rest :
  lang (RNotChar c) m rest -> exists x, m = [x] /\ x <> c.
Proof. inversion 1; subst; eauto. Qed.

Lemma lang_plus_notchar c m rest :
  lang (RPlus (RNotChar c)) m rest -> exists x m', m = x :: m' /\ x <> c.
Proof.
  inversion 1; subst;
    match goal with
    | H1 : lang (RNotChar _) _ _ |- _ => apply lang_notchar_inv in H1 as (x & -> & Hx)
    end; simpl; eauto.
Qed.

(** A match of the tag pattern opens with [<] and a character other than [>]. *)
Lemma lang_tag_pattern_head m rest :
  lang tag_pattern m rest -> exists d m', m = ch "<" :: d :: m' /\ d <> ch ">".
Proof.
  unfold tag_pattern. intros H.
  apply lang_seq_inv in H as (m1 & m234 & -> & H1 & H).
  apply lang_char_inv in H1 as ->.
  apply lang_seq_inv in H as (m2 & m34 & -> & H2 & H).
  apply lang_seq_inv in H as (m3 & m4 & -> & H3 & _).
  apply lang_plus_notchar in H3 as (x & m3' & -> & Hx).
  apply lang_opt_inv in H2 as [->|H2].
  - simpl. eauto.
  - apply lang_char_inv in H2 as ->. simpl.
    eexists _, _. split; [reflexivity | discriminate].
Qed.

Lemma settled_tag_free o : settled o -> tag_free o.
Proof.
  intros Ho pre m rest -> L.
  apply lang_tag_pattern_head in L as (d & m' & -> & Hd).
  simpl in Ho. apply settled_middle in Ho. contradiction.
Qed.

Lemma replace_loop_Stripped fuel : forall s,
  (length s < fuel)%nat -> Stripped s (replace_loop fuel tag_pattern s).
Proof.
  induction fuel as [|n IH]; intros s Hlen; [lia|].
  cbn [replace_loop].
  assert (Hkeep : Stripped s
            match s with [] => [] | c :: s' => c :: replace_loop n tag_pattern s' end).
  { destruct s as [|c s']; [constructor|]. simpl in Hlen. constructor. apply IH. lia. }
  destruct (exec tag_pattern s) as [rest|] eqn:E; [|exact Hkeep].
  destruct (Nat.ltb_spec (length rest) (length s)) as [Hlt|_]; [|exact Hkeep].
  apply exec_sound in E as (m & -> & L).
  constructor; [exact L|]. apply IH. lia.
Qed.

Lemma strip_tags_Stripped s : Stripped s (strip_tags s).
Proof. apply replace_loop_Stripped. lia. Qed.

Lemma strip_tags_tag_free s : tag_free (strip_tags s).
Proof. rewrite strip_tags_scan. apply settled_tag_free, scan_settled. Qed.

(** What does not match stays: a bare [<>], a [>] on its own, and a [<]
    that ends the text. *)
Lemma unmatched_brackets_stay : strip_tags (js "a<>b>c<") = js "a<>b>c<".
Proof. vm_compute. reflexivity. Qed.

(** An opening bracket with no closing one takes the rest of the text. *)
Lemma unclosed_tag_runs_to_the_end : strip_tags (js "x < y and more") = js "x ".
Proof. vm_compute. reflexivity. Qed.

(** ** The field mapping *)

Lemma sanitizeInput_lookup (fields : gmap jsstring JsValue) (key : jsstring) :
  sanitizeInput fields !! key =
  if decide (key = js "__proto__") then None else sanitize_value <$> fields !! key.
Proof.
  unfold sanitizeInput. revert key.
  apply (map_fold_weak_ind (fun r (m : gmap jsstring JsValue) => forall key,
    r !! key = if decide (key = js "__proto__") then None else sanitize_value <$> m !! key)).
  - intros key. rewrite !lookup_empty. by destruct (decide _).
  - intros i x m r Hi IH key. unfold set_property.
    destruct (decide (i = js "__proto__")) as [->|Hi'].
    + rewrite IH. destruct (decide (key = js "__proto__")) as [->|Hk]; [done|].
      by rewrite lookup_insert_ne.
    + destruct (decide (i = key)) as [->|Hne].
      * rewrite !lookup_insert_eq. by rewrite decide_False.
      * rewrite !lookup_insert_ne by done. apply IH.
Qed.

(** ** Base64 text reads back as the bytes it was written from *)

Lemma below_64_cases (P : N -> Prop) :
  Forall P (map N.of_nat (seq 0 64)) -> forall i, i < 64 -> P i.
Proof.
  intros H i Hi. rewrite Forall_forall in H. apply H.
  rewrite <- (N2Nat.id i). apply list_elem_of_In, in_map, in_seq. lia.
Qed.

Lemma base64_value_char i : i < 64 -> base64_value (base64_char i) = Some i.
Proof.
  revert i. apply below_64_cases. vm_compute.
  repeat (constructor; [reflexivity|]). constructor.
Qed.

Lemma base64_char_not_pad i : i < 64 -> (base64_char i =? ch "=") = false.
Proof.
  revert i. apply below_64_cases. vm_compute.
  repeat (constructor; [reflexivity|]). constructor.
Qed.

Ltac div_mod_lia := zify; Z.to_euclidean_division_equations; lia.

Lemma base64_decode_group a b c rest bs :
  a < 256 -> b < 256 -> c < 256 ->
  base64_decode (base64_encode rest) = Some bs ->
  base64_decode (base64_encode (a :: b :: c :: rest)) = Some (a :: b :: c :: bs).
Proof.
  intros Ha Hb Hc Hrest.
  cbn [base64_encode app base64_decode].
  rewrite !base64_value_char by div_mod_lia.
  rewrite !base64_char_not_pad by div_mod_lia.
  cbn [andb]. rewrite Hrest.
  repeat f_equal; div_mod_lia.
Qed.

Lemma base64_decode_encode_upto n : forall bs,
  (length bs <= n)%nat -> Forall (fun b => b < 256) bs ->
  base64_decode (base64_encode bs) = Some bs.
Proof.
  induction n as [|n IH]; intros bs Hlen Hbs.
  { destruct bs; [reflexivity | simpl in Hlen; lia]. }
  destruct bs as [|a [|b [|c rest]]]; [reflexivity | | |].
  - apply Forall_cons in Hbs as [Ha _].
    cbn [base64_encode base64_decode].
    rewrite !base64_value_char by div_mod_lia.
    rewrite N.eqb_refl. cbn [andb].
    repeat f_equal; div_mod_lia.
  - apply Forall_cons in Hbs as [Ha Hbs]. apply Forall_cons in Hbs as [Hb _].
    cbn [base64_encode base64_decode].
    rewrite !base64_value_char by div_mod_lia.
    rewrite base64_char_not_pad by div_mod_lia.
    rewrite N.eqb_refl. cbn [andb].
    repeat f_equal; div_mod_lia.
  - apply Forall_cons in Hbs as [Ha Hbs]. apply Forall_cons in Hbs as [Hb Hbs].
    apply Forall_cons in Hbs as [Hc Hbs].
    apply base64_decode_group; try assumption.
    apply IH; [simpl in Hlen; lia | exact Hbs].
Qed.

Lemma base64_decode_encode bs :
  Forall (fun b => b < 256) bs -> base64_decode (base64_encode bs) = Some bs.
Proof. apply (base64_decode_encode_upto (length bs)). lia. Qed.

Lemma utf8_of_code_point_bytes c : Forall (fun b => b < 256) (utf8_of_code_point c).
Proof.
  unfold utf8_of_code_point.
  destruct (N.ltb_spec c 0x80); [repeat constructor; lia|].
  destruct (N.ltb_spec c 0x800); [repeat constructor; div_mod_lia|].
  destruct (N.ltb_spec c 0x10000); repeat constructor; div_mod_lia.
Qed.

Lemma utf8_encode_bytes_upto n : forall s,
  (length s <= n)%nat -> Forall (fun b => b < 256) (utf8_encode s).
Proof.
  induction n as [|n IH]; intros s Hlen.
  { destruct s; [constructor | simpl in Hlen; lia]. }
  destruct s as [|u s']; [constructor|].
  simpl in Hlen. cbn [utf8_encode].
  assert (Hrep : Forall (fun b => b < 256) utf8_replacement)
    by (repeat constructor; reflexivity).
  destruct (is_high_surrogate u).
  - destruct s' as [|v s'']; [exact Hrep|].
    destruct (is_low_surrogate v); apply Forall_app; split;
      auto using utf8_of_code_point_bytes; apply IH; simpl in *; lia.
  - destruct (is_low_surrogate u); apply Forall_app; split;
      auto using utf8_of_code_point_bytes; apply IH; lia.
Qed.

Lemma utf8_encode_bytes s : Forall (fun b => b < 256) (utf8_encode s).
Proof. apply (utf8_encode_bytes_upto (length s)). lia. Qed.

(** The text put into a publish call reads back as the UTF-8 bytes of
    the string it was made from. *)
Lemma base64_decode_Buffer s :
  base64_decode (Buffer_from_toString_base64 s) = Some (utf8_encode s).
Proof. apply base64_decode_encode, utf8_encode_bytes. Qed.

(** ** UTF-8 reads back as the string it was written from *)

Lemma utf8_decode_code_point c bs :
  c < 0x10000 ->
  utf8_decode (utf8_of_code_point c ++ bs) = cons c <$> utf8_decode bs.
Proof.
  intros Hc. unfold utf8_of_code_point.
  destruct (N.ltb_spec c 0x80) as [H1|H1].
  { cbn [app utf8_decode]. destruct (N.ltb_spec c 0x80); [reflexivity | lia]. }
  destruct (N.ltb_spec c 0x800) as [H2|H2].
  { cbn [app utf8_decode].
    destruct (N.ltb_spec (0xC0 + c / 64) 0x80); [div_mod_lia|].
    destruct (N.ltb_spec (0xC0 + c / 64) 0xC0); [div_mod_lia|].
    destruct (N.ltb_spec (0xC0 + c / 64) 0xE0); [|div_mod_lia].
    replace ((0xC0 + c / 64 - 0xC0) * 64 + (0x80 + c mod 64 - 0x80)) with c
      by div_mod_lia.
    unfold utf16_of_code_point.
    destruct (N.ltb_spec c 0x10000); [|lia]. by destruct (utf8_decode bs). }
  destruct (N.ltb_spec c 0x10000) as [_|H3]; [|lia].
  cbn [app utf8_decode].
  destruct (N.ltb_spec (0xE0 + (c / 4096) mod 16) 0x80); [div_mod_lia|].
  destruct (N.ltb_spec (0xE0 + (c / 4096) mod 16) 0xC0); [div_mod_lia|].
  destruct (N.ltb_spec (0xE0 + (c / 4096) mod 16) 0xE0); [div_mod_lia|].
  destruct (N.ltb_spec (0xE0 + (c / 4096) mod 16) 0xF0); [|div_mod_lia].
  replace ((0xE0 + (c / 4096) mod 16 - 0xE0) * 4096
           + (0x80 + (c / 64) mod 64 - 0x80) * 64 + (0x80 + c mod 64 - 0x80))
    with c by div_mod_lia.
  unfold utf16_of_code_point.
  destruct (N.ltb_spec c 0x10000); [|lia]. by destruct (utf8_decode bs).
Qed.

Lemma utf8_decode_pair u v bs :
  is_high_surrogate u = true -> is_low_surrogate v = true ->
  utf8_decode
    (utf8_of_code_point (0x10000 + (u - 0xD800) * 1024 + (v - 0xDC00)) ++ bs)
  = app [u; v] <$> utf8_decode bs.
Proof.
  unfold is_high_surrogate, is_low_surrogate.
  rewrite !andb_true_iff, !N.leb_le, !N.ltb_lt. intros [Hu1 Hu2] [Hv1 Hv2].
  set (c := 0x10000 + (u - 0xD800) * 1024 + (v - 0xDC00)).
  assert (Hc : 0x10000 <= c < 0x110000) by (subst c; lia).
  unfold utf8_of_code_point.
  destruct (N.ltb_spec c 0x80); [lia|].
  destruct (N.ltb_spec c 0x800); [lia|].
  destruct (N.ltb_spec c 0x10000); [lia|].
  cbn [app utf8_decode].
  destruct (N.ltb_spec (0xF0 + (c / 262144) mod 8) 0x80); [div_mod_lia|].
  destruct (N.ltb_spec (0xF0 + (c / 262144) mod 8) 0xC0); [div_mod_lia|].
  destruct (N.ltb_spec (0xF0 + (c / 262144) mod 8) 0xE0); [div_mod_lia|].
  destruct (N.ltb_spec (0xF0 + (c / 262144) mod 8) 0xF0); [div_mod_lia|].
  replace ((0xF0 + (c / 262144) mod 8 - 0xF0) * 262144
           + (0x80 + (c / 4096) mod 64 - 0x80) * 4096
           + (0x80 + (c / 64) mod 64 - 0x80) * 64 + (0x80 + c mod 64 - 0x80))
    with c by div_mod_lia.
  unfold utf16_of_code_point.
  destruct (N.ltb_spec c 0x10000); [lia|].
  replace (0xD800 + (c - 0x10000) / 1024) with u by (subst c; div_mod_lia).
  replace (0xDC00 + (c - 0x10000) mod 1024) with v by (subst c; div_mod_lia).
  reflexivity.
Qed.

Lemma utf8_decode_encode_upto n : forall s,
  (length s <= n)%nat -> well_formed s = true ->
  utf8_decode (utf8_encode s) = Some s.
Proof.
  induction n as [|n IH]; intros s Hlen Hwf.
  { destruct s; [reflexivity | simpl in Hlen; lia]. }
  destruct s as [|u s']; [reflexivity|].
  simpl in Hlen. cbn [utf8_encode well_formed] in *.
  destruct (is_high_surrogate u) eqn:Hhigh.
  - destruct s' as [|v s'']; [discriminate|].
    apply andb_true_iff in Hwf as [Hlow Hwf]. rewrite Hlow.
    rewrite (utf8_decode_pair u v _ Hhigh Hlow), IH by (simpl in Hlen; lia || done).
    reflexivity.
  - apply andb_true_iff in Hwf as [Hwf Hwf']. apply andb_true_iff in Hwf as [Hlow Hu].
    apply negb_true_iff in Hlow. rewrite Hlow.
    apply N.ltb_lt in Hu.
    rewrite (utf8_decode_code_point u _ Hu), IH by (lia || done). reflexivity.
Qed.

Lemma utf8_decode_encode s :
  well_formed s = true -> utf8_decode (utf8_encode s) = Some s.
Proof. apply (utf8_decode_encode_upto (length s)). lia. Qed.

(** The text of a publish call reads back as the string it was made
    from, when that string has none but paired surrogates. *)
Lemma Buffer_reads_back s :
  well_formed s = true ->
  base64_decode (Buffer_from_toString_base64 s) ≫= utf8_decode = Some s.
Proof.
  intros Hwf. rewrite base64_decode_Buffer. cbn [mbind option_bind].
  by apply utf8_decode_encode.
Qed.

(** ** Running the stages of the handler *)

Section Run.
Context {env : Env}.
Implicit Types (w : World env) (files : list ExtractedFile).

Lemma log_nil w : log w [] = w.
Proof. destruct w. unfold log. simpl. by rewrite app_nil_r. Qed.

Lemma log_log w a b : log (log w a) b = log w (a ++ b).
Proof. unfold log. simpl. by rewrite app_assoc. Qed.

Lemma published_app t1 t2 : published (t1 ++ t2) = published t1 ++ published t2.
Proof. apply flat_map_app. Qed.

Lemma published_calls_ok ps : published (calls_ok ps) = ps.
Proof. induction ps as [|p ps IH]; [reflexivity|]. simpl. by rewrite IH. Qed.

Lemma published_started (paths : list jsstring) :
  published (map EvAsyncString paths) = [].
Proof. induction paths; [reflexivity | assumption]. Qed.

Lemma published_extracted (paths : list jsstring) :
  published (map EvExtracted paths) = [].
Proof. induction paths; [reflexivity | assumption]. Qed.

Lemma published_reading files : published (reading files) = [].
Proof.
  unfold reading. by rewrite published_app, published_started, published_extracted.
Qed.

Lemma forEach_push_run loadedZip w :
  forEach_push loadedZip w =
  (inr (map (fun entry => async_then entry.1 entry.2) (file_entries loadedZip)),
   log w (map EvAsyncString (map fst (file_entries loadedZip)))).
Proof.
  revert w. induction loadedZip as [|[relativePath zipEntry] l IH]; intros w.
  - simpl. by rewrite log_nil.
  - cbn [forEach_push]. unfold file_entries.
    destruct (dir zipEntry) eqn:Hdir; cbn [negb].
    + rewrite filter_cons_False by (simpl; congruence). apply IH.
    + rewrite filter_cons_True by exact Hdir.
      unfold bind, emit, ret. rewrite IH, log_log. reflexivity.
Qed.

Lemma Promise_all_resolved files w :
  Promise_all (map inr files) w =
  (inr files, log w (map EvExtracted (map file_path files))).
Proof.
  revert w. induction files as [|file files IH]; intros w.
  - simpl. by rewrite log_nil.
  - cbn [Promise_all map]. unfold bind, emit, ret. rewrite IH, log_log. reflexivity.
Qed.

Lemma Promise_all_inv filePromises : forall w res w',
  Promise_all filePromises w = (res, w') ->
  remote w' = remote w /\ published (trace w') = published (trace w) /\
  forall files, res = inr files -> filePromises = map inr files.
Proof.
  induction filePromises as [|[e|file] l IH]; intros w res w' H.
  - injection H as <- <-. repeat split. by intros files [= <-].
  - injection H as <- <-. repeat split. by intros files [=].
  - cbn [Promise_all] in H. unfold bind, emit, ret in H.
    destruct (Promise_all l (log w [EvExtracted (file_path file)])) as [[e|files'] w1] eqn:E;
      apply IH in E as (Hr & Hp & Hfiles); injection H as <- <-;
      (split; [exact Hr|]); (split; [rewrite Hp; simpl; rewrite published_app;
        by rewrite app_nil_r|]).
    + by intros files [=].
    + intros files [= <-]. simpl. f_equal. by apply Hfiles.
Qed.

Lemma async_then_inr entry file :
  async_then entry.1 entry.2 = inr file <-> read_from entry file.
Proof.
  unfold async_then, read_from. destruct entry as [relativePath zipEntry]. simpl.
  destruct (async_string zipEntry) as [e|c]; split.
  - by intros [=].
  - by intros [_ [=]].
  - intros [= <-]. by split.
  - intros [<- [= ->]]. by destruct file.
Qed.

Lemma promises_resolved entries files :
  map (fun entry => async_then entry.1 entry.2) entries = map inr files <->
  Forall2 read_from entries files.
Proof.
  revert files. induction entries as [|entry l IH]; intros [|file files]; simpl.
  - split; [constructor | reflexivity].
  - split; [intros [=] | inversion 1].
  - split; [intros [=] | inversion 1].
  - split.
    + intros [= H1 H2]. constructor; [by apply async_then_inr | by apply IH].
    + inversion 1; subst. f_equal; [by apply async_then_inr | by apply IH].
Qed.

Lemma read_from_paths (entries : list (jsstring * ZipObject)) files :
  Forall2 read_from entries files -> map file_path files = map fst entries.
Proof.
  induction 1 as [|entry file l files' [Hp _] _ IH]; [reflexivity|].
  simpl. by rewrite Hp, IH.
Qed.

Lemma read_archive_ok loadedZip files w :
  Forall2 read_from (file_entries loadedZip) files ->
  read_archive loadedZip w = (inr files, log w (reading files)).
Proof.
  intros H. unfold read_archive, bind. rewrite forEach_push_run.
  rewrite <- (read_from_paths _ _ H).
  apply promises_resolved in H. rewrite H, Promise_all_resolved, log_log.
  reflexivity.
Qed.

Lemma read_archive_inv loadedZip w res w' :
  read_archive loadedZip w = (res, w') ->
  remote w' = remote w /\ published (trace w') = published (trace w) /\
  forall files, res = inr files -> Forall2 read_from (file_entries loadedZip) files.
Proof.
  unfold read_archive, bind. rewrite forEach_push_run. intros H.
  apply Promise_all_inv in H as (Hr & Hp & Hfiles).
  split; [exact Hr|]. split.
  - rewrite Hp. simpl. by rewrite published_app, published_started, app_nil_r.
  - intros files Hres. by apply promises_resolved, Hfiles.
Qed.
End Run.

Section Publish.
Context {env : Env}.
Variables (username repoName : JsValue).
Implicit Types (w : World env) (files : list ExtractedFile).

Local Abbreviation params := (publish_params username repoName).

Lemma publish_loop_ok files : forall w r',
  accepts env (map params files) (remote w) = Some r' ->
  publish_loop username repoName files w =
  (inr tt, {| remote := r'; trace := trace w ++ calls_ok (map params files) |}).
Proof.
  induction files as [|file files IH]; intros w r' H; simpl in H.
  - injection H as <-. destruct w. simpl. by rewrite app_nil_r.
  - cbn [publish_loop]. unfold bind, await_createOrUpdateFileContents.
    destruct (createOrUpdateFileContents env (params file) (remote w)) as [[e|] r1];
      [discriminate|].
    rewrite (IH _ r') by exact H. simpl. by rewrite <- app_assoc.
Qed.

Lemma publish_loop_fails pre file post : forall w r1 e r2,
  accepts env (map params pre) (remote w) = Some r1 ->
  createOrUpdateFileContents env (params file) r1 = (Some e, r2) ->
  publish_loop username repoName (pre ++ file :: post) w =
  (inl e, {| remote := r2;
             trace := trace w ++ calls_ok (map params pre)
                        ++ [EvPublishCall (params file); EvPublishSettled (Some e)] |}).
Proof.
  induction pre as [|file0 pre IH]; intros w r1 e r2 H Hfail; simpl in H.
  - injection H as <-. cbn [app publish_loop].
    unfold bind, await_createOrUpdateFileContents. by rewrite Hfail.
  - cbn [app publish_loop]. unfold bind, await_createOrUpdateFileContents.
    destruct (createOrUpdateFileContents env (params file0) (remote w)) as [[e0|] r0];
      [discriminate|].
    rewrite (IH _ r1 e r2) by assumption. simpl. by rewrite <- app_assoc.
Qed.

(** The loop either gets through, or stops at a first rejected call. *)
Lemma publish_loop_cases files : forall r : Remote env,
  (exists r', accepts env (map params files) r = Some r') \/
  (exists pre file post r1 e r2,
     files = pre ++ file :: post /\
     accepts env (map params pre) r = Some r1 /\
     createOrUpdateFileContents env (params file) r1 = (Some e, r2)).
Proof.
  induction files as [|file files IH]; intros r; [left; by exists r|].
  destruct (createOrUpdateFileContents env (params file) r) as [[e|] r1] eqn:E.
  - right. exists [], file, files, r, e, r1. by repeat split.
  - destruct (IH r1) as [[r' H] | (pre & f & post & r2 & e & r3 & -> & H & Hf)].
    + left. exists r'. simpl. by rewrite E.
    + right. exists (file :: pre), f, post, r2, e, r3.
      split; [reflexivity|]. split; [|exact Hf]. simpl. by rewrite E.
Qed.
End Publish.

Section Handle.
Context {env : Env}.
Implicit Types (w : World env) (files : list ExtractedFile).

(** A submitted request gets as far as [loadAsync]. *)
Lemma handle_submitted request username repoName zipData w :
  Submitted request username repoName zipData ->
  handleDeployRequest request w =
  try_catch
    (loadedZip <- await (loadAsync env zipData) ;;
     extractedFiles <- read_archive loadedZip ;;
     _ <- publish_loop username repoName extractedFiles ;;
     ret deployed)
    deploy_catch (log w [EvArrayBuffer; EvLoadAsync zipData]).
Proof.
  intros [Hm (fields & files & zipFile & others & Hf & -> & -> & Hfile & Hbuf) Hu Hr].
  unfold handleDeployRequest. rewrite Hm, bool_decide_eq_true_2 by reflexivity.
  cbn [negb]. rewrite Hf. unfold bind at 1. cbn [await ret].
  unfold try_catch, deploy_body, incomplete, files_file_0.
  rewrite Hu, Hr, Hfile. unfold deploy_archive.
  unfold bind, ret, emit. cbn [head]. rewrite Hbuf. cbn [await ret].
  rewrite bool_decide_eq_true_2 by (by eexists). cbn [negb].
  rewrite !log_log. cbn [app]. reflexivity.
Qed.

Lemma handle_load_rejected request username repoName zipData e w :
  Submitted request username repoName zipData ->
  loadAsync env zipData = inl e ->
  handleDeployRequest request w =
  (inr (failed e), log w [EvArrayBuffer; EvLoadAsync zipData]).
Proof.
  intros Hs Hl. rewrite (handle_submitted _ _ _ _ _ Hs).
  unfold try_catch, bind. by rewrite Hl.
Qed.

Lemma handle_read_rejected request username repoName zipData loadedZip w e w' :
  Submitted request username repoName zipData ->
  loadAsync env zipData = inr loadedZip ->
  read_archive loadedZip (log w [EvArrayBuffer; EvLoadAsync zipData]) = (inl e, w') ->
  handleDeployRequest request w = (inr (failed e), w').
Proof.
  intros Hs Hl Hread. rewrite (handle_submitted _ _ _ _ _ Hs).
  unfold try_catch, bind. rewrite Hl. cbn [await ret]. by rewrite Hread.
Qed.

Lemma handle_deployed request username repoName zipData loadedZip files r' w :
  Submitted request username repoName zipData ->
  loadAsync env zipData = inr loadedZip ->
  Forall2 read_from (file_entries loadedZip) files ->
  accepts env (map (publish_params username repoName) files) (remote w) = Some r' ->
  handleDeployRequest request w =
  (inr deployed,
   {| remote := r';
      trace := trace w ++ [EvArrayBuffer; EvLoadAsync zipData] ++ reading files
                 ++ calls_ok (map (publish_params username repoName) files) |}).
Proof.
  intros Hs Hl Hread Hacc. rewrite (handle_submitted _ _ _ _ _ Hs).
  unfold try_catch, bind. rewrite Hl. cbn [await ret].
  rewrite (read_archive_ok _ _ _ Hread), log_log.
  rewrite (publish_loop_ok _ _ _ _ r') by exact Hacc.
  unfold ret. simpl. by rewrite <- !app_assoc.
Qed.

Lemma handle_publish_rejected request username repoName zipData loadedZip
    pre file post r1 e r2 w :
  Submitted request username repoName zipData ->
  loadAsync env zipData = inr loadedZip ->
  Forall2 read_from (file_entries loadedZip) (pre ++ file :: post) ->
  accepts env (map (publish_params username repoName) pre) (remote w) = Some r1 ->
  createOrUpdateFileContents env (publish_params username repoName file) r1
    = (Some e, r2) ->
  handleDeployRequest request w =
  (inr (failed e),
   {| remote := r2;
      trace := trace w ++ [EvArrayBuffer; EvLoadAsync zipData]
                 ++ reading (pre ++ file :: post)
                 ++ calls_ok (map (publish_params username repoName) pre)
                 ++ [EvPublishCall (publish_params username repoName file);
                     EvPublishSettled (Some e)] |}).
Proof.
  intros Hs Hl Hread Hacc Hfail. rewrite (handle_submitted _ _ _ _ _ Hs).
  unfold try_catch, bind. rewrite Hl. cbn [await ret].
  rewrite (read_archive_ok _ _ _ Hread), log_log.
  rewrite (publish_loop_fails _ _ _ _ _ _ r1 e r2) by assumption.
  unfold deploy_catch, ret, failed. simpl. by rewrite <- !app_assoc.
Qed.

(** A request is submitted, or the handler leaves the service alone. *)
Lemma handle_post (request : Request) (fields : gmap jsstring JsValue)
    (files : gmap jsstring (list File)) w :
  method request = js "POST" ->
  form_parse request = inr (fields, files) ->
  handleDeployRequest request w = try_catch (deploy_body fields files) deploy_catch w.
Proof.
  intros Hm Hf. unfold handleDeployRequest.
  rewrite Hm, bool_decide_eq_true_2 by reflexivity. cbn [negb]. by rewrite Hf.
Qed.

Lemma handle_not_submitted request w :
  (exists username repoName zipData, Submitted request username repoName zipData) \/
  (remote (handleDeployRequest request w).2 = remote w /\
   published (trace (handleDeployRequest request w).2) = published (trace w)).
Proof.
  destruct (decide (method request = js "POST")) as [Hm|Hm].
  2:{ right. unfold handleDeployRequest.
      rewrite bool_decide_eq_false_2 by exact Hm. by split. }
  destruct (form_parse request) as [e|[fields files]] eqn:Hf.
  { right. unfold handleDeployRequest.
    rewrite bool_decide_eq_true_2 by exact Hm. cbn [negb]. rewrite Hf. by split. }
  rewrite (handle_post _ _ _ _ Hm Hf).
  unfold try_catch, deploy_body, incomplete, files_file_0, bind.
  set (username := get_property (sanitizeInput fields) (js "username")).
  set (repoName := get_property (sanitizeInput fields) (js "repoName")).
  destruct (not_ username) eqn:Hu; [right; by split|].
  destruct (not_ repoName) eqn:Hr; [right; by split|].
  destruct (files !! js "file") as [[|zipFile others]|] eqn:Hfile;
    [right; by split | | right; by split].
  destruct (arrayBuffer zipFile) as [e|zipData] eqn:Hbuf.
  - right. unfold ret, deploy_archive, bind, emit. cbn [head].
    rewrite bool_decide_eq_true_2 by (by eexists). cbn [negb].
    rewrite Hbuf. simpl. split; [reflexivity|].
    by rewrite published_app, app_nil_r.
  - left. exists username, repoName, zipData.
    split; [exact Hm | | exact Hu | exact Hr].
    exists fields, files, zipFile, others. by repeat split.
Qed.

(** The runs of the handler: it leaves the service alone, or it has
    read the files of a loaded archive and the loop over them either
    gets through or stops at a first rejected call. *)
Lemma handle_cases request w :
  (remote (handleDeployRequest request w).2 = remote w /\
   published (trace (handleDeployRequest request w).2) = published (trace w)) \/
  (exists username repoName zipData loadedZip files,
     Submitted request username repoName zipData /\
     loadAsync env zipData = inr loadedZip /\
     Forall2 read_from (file_entries loadedZip) files /\
     ((exists r',
         accepts env (map (publish_params username repoName) files) (remote w)
           = Some r') \/
      (exists pre file post r1 e r2,
         files = pre ++ file :: post /\
         accepts env (map (publish_params username repoName) pre) (remote w)
           = Some r1 /\
         createOrUpdateFileContents env (publish_params username repoName file) r1
           = (Some e, r2)))).
Proof.
  destruct (handle_not_submitted request w)
    as [(username & repoName & zipData & Hs) | Hquiet]; [|by left].
  destruct (loadAsync env zipData) as [e|loadedZip] eqn:Hl.
  { left. rewrite (handle_load_rejected _ _ _ _ _ _ Hs Hl). simpl.
    split; [reflexivity|]. by rewrite published_app, app_nil_r. }
  destruct (read_archive loadedZip (log w [EvArrayBuffer; EvLoadAsync zipData]))
    as [[e|files] w'] eqn:Hread.
  { left. rewrite (handle_read_rejected _ _ _ _ _ _ _ _ Hs Hl Hread). simpl.
    apply read_archive_inv in Hread as (Hr & Hp & _). rewrite Hr, Hp. simpl.
    split; [reflexivity|]. by rewrite published_app, app_nil_r. }
  right. exists username, repoName, zipData, loadedZip, files.
  apply read_archive_inv in Hread as (_ & _ & Hfiles).
  split; [exact Hs|]. split; [exact Hl|]. split; [by apply Hfiles|].
  apply publish_loop_cases.
Qed.
End Handle.

(** ** Where a publish call sits in the trace *)

Section Calls.
Context {env : Env}.
Implicit Types (w : World env) (files : list ExtractedFile) (t : list Event).

Lemma quiet_prefix_split t : forall t' t1 p t2,
  published t = [] ->
  t ++ t' = t1 ++ EvPublishCall p :: t2 ->
  exists t1', t1 = t ++ t1' /\ t' = t1' ++ EvPublishCall p :: t2.
Proof.
  induction t as [|a t IH]; intros t' t1 p t2 Hq H.
  - exists t1. by split.
  - destruct t1 as [|a' t1]; simpl in H; injection H as -> H.
    + discriminate Hq.
    + unfold published in Hq. cbn [flat_map] in Hq.
      apply app_eq_nil in Hq as [_ Hq].
      destruct (IH _ _ _ _ Hq H) as (t1' & -> & ->). by exists t1'.
Qed.

Lemma calls_ok_split ps : forall tail t1 p t2,
  (tail = [] \/ exists q e, tail = [EvPublishCall q; EvPublishSettled (Some e)]) ->
  calls_ok ps ++ tail = t1 ++ EvPublishCall p :: t2 ->
  exists k r t3,
    t1 = calls_ok (take k ps) /\ (ps ++ published tail) !! k = Some p /\
    t2 = EvPublishSettled r :: t3 /\ (r <> None -> t3 = []).
Proof.
  induction ps as [|q ps IH]; intros tail t1 p t2 Htail H.
  - destruct Htail as [->|(q & e & ->)]; simpl in H.
    + by destruct t1.
    + destruct t1 as [|a [|b [|c t1]]]; simpl in H; try discriminate.
      injection H as <- <-. by exists 0%nat, (Some e), [].
  - cbn [calls_ok flat_map app] in H.
    destruct t1 as [|a [|b t1]]; simpl in H; try discriminate.
    + injection H as <- <-. exists 0%nat, None, (calls_ok ps ++ tail).
      by repeat split.
    + injection H as <- <- H.
      destruct (IH _ _ _ _ Htail H) as (k & r & t3 & -> & Hk & -> & Hr).
      by exists (S k), r, t3.
Qed.

(** Whatever the request and the answers of the collaborators: when a
    call is issued, the archive has been loaded and read in full, the
    calls for the files before it have resolved, and the next thing to
    happen is that the call settles; after a rejection nothing happens
    any more. *)
Lemma handle_call request w t1 p t2 :
  trace w = [] ->
  trace (handleDeployRequest request w).2 = t1 ++ EvPublishCall p :: t2 ->
  exists username repoName zipData loadedZip files k file r t3,
    Submitted request username repoName zipData /\
    loadAsync env zipData = inr loadedZip /\
    Forall2 read_from (file_entries loadedZip) files /\
    files !! k = Some file /\
    p = publish_params username repoName file /\
    t1 = [EvArrayBuffer; EvLoadAsync zipData] ++ reading files
           ++ calls_ok (map (publish_params username repoName) (take k files)) /\
    t2 = EvPublishSettled r :: t3 /\
    (r <> None -> t3 = []).
Proof.
  intros Hw H.
  destruct (handle_cases request w)
    as [[_ Hq] | (username & repoName & zipData & loadedZip & files & Hs & Hl & Hread
                  & Hloop)].
  { rewrite H, Hw, published_app in Hq. by destruct (published t1). }
  assert (Hsplit : forall oks tail,
    (tail = [] \/ exists q e, tail = [EvPublishCall q; EvPublishSettled (Some e)]) ->
    trace (handleDeployRequest request w).2 =
      ([EvArrayBuffer; EvLoadAsync zipData] ++ reading files) ++ calls_ok oks ++ tail ->
    exists k r t3,
      t1 = [EvArrayBuffer; EvLoadAsync zipData] ++ reading files ++ calls_ok (take k oks) /\
      (oks ++ published tail) !! k = Some p /\
      t2 = EvPublishSettled r :: t3 /\ (r <> None -> t3 = [])).
  { intros oks tail Htail Ht. rewrite H in Ht. symmetry in Ht.
    apply quiet_prefix_split in Ht as (t1' & -> & Ht);
      [|by rewrite published_app, published_reading].
    apply calls_ok_split in Ht as (k & r & t3 & -> & Hk & -> & Hr); [|exact Htail].
    exists k, r, t3. rewrite <- app_assoc. by repeat split. }
  destruct Hloop as [[r' Hacc] | (pre & file & post & r1 & e & r2 & -> & Hacc & Hfail)].
  - destruct (Hsplit (map (publish_params username repoName) files) [])
      as (k & r & t3 & -> & Hk & -> & Hr); [by left | |].
    { rewrite (handle_deployed _ _ _ _ _ _ _ _ Hs Hl Hread Hacc). simpl.
      by rewrite Hw, app_nil_r. }
    rewrite app_nil_r in Hk. apply list_lookup_fmap_Some_1 in Hk as (file & -> & Hk).
    exists username, repoName, zipData, loadedZip, files, k, file, r, t3.
    rewrite firstn_map.
    split; [exact Hs|]. split; [exact Hl|]. split; [exact Hread|].
    split; [exact Hk|]. split; [reflexivity|]. split; [reflexivity|].
    split; [reflexivity | exact Hr].
  - destruct (Hsplit (map (publish_params username repoName) pre)
                [EvPublishCall (publish_params username repoName file);
                 EvPublishSettled (Some e)])
      as (k & r & t3 & -> & Hk & -> & Hr); [right; by eauto | |].
    { rewrite (handle_publish_rejected _ _ _ _ _ _ _ _ _ _ _ _ Hs Hl Hread Hacc Hfail).
      simpl. by rewrite Hw. }
    change (published [EvPublishCall (publish_params username repoName file);
                       EvPublishSettled (Some e)])
      with (map (publish_params username repoName) [file]) in Hk.
    rewrite <- map_app in Hk. apply list_lookup_fmap_Some_1 in Hk as (f & -> & Hk).
    assert (Hlen : (k <= length pre)%nat).
    { apply lookup_lt_Some in Hk. rewrite length_app in Hk. simpl in Hk. lia. }
    exists username, repoName, zipData, loadedZip, (pre ++ file :: post), k, f, r, t3.
    split; [exact Hs|]. split; [exact Hl|]. split; [exact Hread|].
    split.
    { change (file :: post) with ([file] ++ post). rewrite app_assoc.
      by apply lookup_app_l_Some. }
    split; [reflexivity|]. split; [|split; [reflexivity | exact Hr]].
    rewrite firstn_map, take_app_le by exact Hlen. reflexivity.
Qed.
End Calls.

(** ** More on submitted requests *)

Section Validation.
Context {env : Env}.
Implicit Types (w : World env) (files : list ExtractedFile).

(** Whatever the service answers, the calls issued are those for a
    first stretch of the files read. *)
Lemma handle_published request username repoName zipData loadedZip files w :
  Submitted request username repoName zipData ->
  loadAsync env zipData = inr loadedZip ->
  Forall2 read_from (file_entries loadedZip) files ->
  exists k,
    published (trace (handleDeployRequest request w).2) =
    published (trace w) ++ map (publish_params username repoName) (take k files).
Proof.
  intros Hs Hl Hread.
  destruct (publish_loop_cases username repoName files (remote w))
    as [[r' Hacc] | (pre & file & post & r1 & e & r2 & -> & Hacc & Hfail)].
  - exists (length files).
    rewrite (handle_deployed _ _ _ _ _ _ _ _ Hs Hl Hread Hacc). cbn [snd trace].
    rewrite !published_app, published_reading, published_calls_ok, firstn_all.
    reflexivity.
  - exists (S (length pre)).
    rewrite (handle_publish_rejected _ _ _ _ _ _ _ _ _ _ _ _ Hs Hl Hread Hacc Hfail).
    cbn [snd trace]. rewrite !published_app, published_reading, published_calls_ok.
    change (file :: post) with ([file] ++ post).
    rewrite (app_assoc pre [file] post), take_app_length'
      by (rewrite length_app; simpl; lia).
    by rewrite map_app.
Qed.

Lemma read_from_exists (entries : list (jsstring * ZipObject)) :
  Forall (fun entry => exists content_, async_string entry.2 = inr content_) entries ->
  exists files, Forall2 read_from entries files.
Proof.
  induction 1 as [|entry l [c Hc] _ [files IH]]; [by exists []|].
  exists ({| file_path := entry.1; file_content := c |} :: files).
  constructor; [by split | exact IH].
Qed.

Lemma entries_partition (loadedZip : list (jsstring * ZipObject)) :
  (length (file_entries loadedZip)
     + length (filter (fun entry => dir entry.2 = true) loadedZip))%nat
  = length loadedZip.
Proof.
  unfold file_entries. induction loadedZip as [|[q z] l IH]; [reflexivity|].
  destruct (dir z) eqn:Hz.
  - rewrite filter_cons_False, filter_cons_True by (simpl; congruence). simpl. lia.
  - rewrite filter_cons_True, filter_cons_False by (simpl; congruence). simpl. lia.
Qed.

(** A call that was issued is the call for a file of the archive. *)
Lemma handle_call_entry request w p :
  trace w = [] ->
  EvPublishCall p ∈ trace (handleDeployRequest request w).2 ->
  exists username repoName zipData loadedZip entry file,
    Submitted request username repoName zipData /\
    loadAsync env zipData = inr loadedZip /\
    entry ∈ loadedZip /\ dir entry.2 = false /\
    read_from entry file /\
    p = publish_params username repoName file.
Proof.
  intros Hw Hp. apply list_elem_of_split in Hp as (t1 & t2 & Ht).
  destruct (handle_call _ _ _ _ _ Hw Ht)
    as (username & repoName & zipData & loadedZip & files & k & file & r & t3
        & Hs & Hl & Hread & Hk & -> & _).
  destruct (Forall2_lookup_r _ _ _ _ _ Hread Hk) as (entry & Hentry & Hfrom).
  apply list_elem_of_lookup_2 in Hentry.
  apply list_elem_of_filter in Hentry as [Hdir Hin].
  by exists username, repoName, zipData, loadedZip, entry, file.
Qed.

Lemma absent_field_undefined (fields : gmap jsstring JsValue) (key : jsstring) :
  fields !! key = None -> not_ (get_property (sanitizeInput fields) key) = true.
Proof.
  intros H. unfold get_property. rewrite sanitizeInput_lookup, H.
  by destruct (decide _).
Qed.

Lemma text_field_missing (request : Request) (fields : gmap jsstring JsValue)
    (files : gmap jsstring (list File)) w :
  method request = js "POST" ->
  form_parse request = inr (fields, files) ->
  not_ (get_property (sanitizeInput fields) (js "username")) = true \/
  not_ (get_property (sanitizeInput fields) (js "repoName")) = true ->
  handleDeployRequest request w = (inr incomplete_data, w).
Proof.
  intros Hm Hf H. rewrite (handle_post _ _ _ _ Hm Hf).
  unfold try_catch, deploy_body, incomplete, bind.
  destruct (not_ (get_property (sanitizeInput fields) (js "username")));
    [reflexivity|].
  destruct H as [H|H]; [discriminate | by rewrite H].
Qed.

Lemma file_missing (request : Request) (fields : gmap jsstring JsValue)
    (files : gmap jsstring (list File)) w :
  method request = js "POST" ->
  form_parse request = inr (fields, files) ->
  not_ (get_property (sanitizeInput fields) (js "username")) = false ->
  not_ (get_property (sanitizeInput fields) (js "repoName")) = false ->
  files !! js "file" = None ->
  handleDeployRequest request w = (inr (failed (TypeError_undefined env (js "0"))), w).
Proof.
  intros Hm Hf Hu Hr Hfile. rewrite (handle_post _ _ _ _ Hm Hf).
  unfold try_catch, deploy_body, incomplete, files_file_0, bind.
  by rewrite Hu, Hr, Hfile.
Qed.
End Validation.

(** ** The step that asks the uploaded file for its bytes *)

Section Upload.
Context {env : Env}.
Implicit Types (w : World env).

(** When [zipFile.arrayBuffer()] throws or rejects, the [catch] clause
    answers before the archive library is called. *)
Lemma handle_buffer_rejected (request : Request) (fields : gmap jsstring JsValue)
    (files : gmap jsstring (list File)) (zipFile : File) (others : list File)
    (e : JsError) w :
  method request = js "POST" ->
  form_parse request = inr (fields, files) ->
  not_ (get_property (sanitizeInput fields) (js "username")) = false ->
  not_ (get_property (sanitizeInput fields) (js "repoName")) = false ->
  files !! js "file" = Some (zipFile :: others) ->
  arrayBuffer zipFile = inl e ->
  handleDeployRequest request w = (inr (failed e), log w [EvArrayBuffer]).
Proof.
  intros Hm Hf Hu Hr Hfile Hbuf. rewrite (handle_post _ _ _ _ Hm Hf).
  unfold try_catch, deploy_body, incomplete, files_file_0, bind.
  rewrite Hu, Hr, Hfile.
  unfold ret, deploy_archive, bind, emit. cbn [head].
  rewrite bool_decide_eq_true_2 by (by eexists). cbn [negb].
  by rewrite Hbuf.
Qed.


End Upload.

(** * The claims *)




(** C9. The sanitizer is idempotent: applied to its own output it gives
    that output back. *)
Theorem sanitizeInput_idempotent (fields : gmap jsstring JsValue) :
  sanitizeInput (sanitizeInput fields) = sanitizeInput fields.
Proof.
  apply map_eq. intros key. rewrite !sanitizeInput_lookup.
  destruct (decide _); [reflexivity|].
  destruct (fields !! key) as [raw|]; [|reflexivity].
  cbn [fmap option_fmap option_map]. unfold sanitize_value at 1.
  cbn [String_of sanitize_value]. by rewrite strip_tags_idempotent.
Qed.

(** C1. When the call for the K-th of the N files read from the archive
    is rejected, after the K-1 calls before it resolved: the answer is
    status 500 with the error's message behind the fixed prefix; the
    calls before it were issued and settled, in order, before it was
    issued; no call for a later file is issued; and the service is left
    in the state the K calls put it in, nothing being undone. *)
Theorem rejected_call_stops_publishing {env : Env} (request : Request)
    (username repoName : JsValue) (zipData : list N)
    (loadedZip : list (jsstring * ZipObject))
    (pre : list ExtractedFile) (file : ExtractedFile) (post : list ExtractedFile)
    (r1 r2 : Remote env) (e : JsError) (w : World env) :
  Submitted request username repoName zipData ->
  loadAsync env zipData = inr loadedZip ->
  Forall2 read_from (file_entries loadedZip) (pre ++ file :: post) ->
  accepts env (map (publish_params username repoName) pre) (remote w) = Some r1 ->
  createOrUpdateFileContents env (publish_params username repoName file) r1
    = (Some e, r2) ->
  let out := handleDeployRequest request w in
  out.1 = inr {| body := js "Kesalahan deployment: " ++ err_message e; status := 500 |} /\
  trace out.2 =
    trace w ++ [EvArrayBuffer; EvLoadAsync zipData] ++ reading (pre ++ file :: post)
      ++ calls_ok (map (publish_params username repoName) pre)
      ++ [EvPublishCall (publish_params username repoName file);
          EvPublishSettled (Some e)] /\
  published (trace out.2) =
    published (trace w) ++ map (publish_params username repoName) (pre ++ [file]) /\
  remote out.2 = r2.
Proof.
  intros Hs Hl Hread Hacc Hfail out. subst out.
  rewrite (handle_publish_rejected _ _ _ _ _ _ _ _ _ _ _ _ Hs Hl Hread Hacc Hfail).
  cbn [fst snd trace remote]. repeat split.
  rewrite !published_app, published_reading, published_calls_ok, map_app.
  reflexivity.
Qed.

Lemma rejected_call_stops_publishing_witness :
  let a := {| file_path := js "a.txt"; file_content := js "hello" |} in
  let b := {| file_path := js "dir/b.txt"; file_content := js "world" |} in
  let alice := VStr (js "alice") in
  let demo := VStr (js "demo") in
  let out :=
    handleDeployRequest
      (post (js "alice") (js "demo") {[ js "file" := [upload demo_blob] ]})
      (demo_world [js "dir/b.txt"]) in
  out.1 = inr {| body := js "Kesalahan deployment: Conflict"; status := 500 |} /\
  trace out.2 =
    [] ++ [EvArrayBuffer; EvLoadAsync demo_blob] ++ reading ([a] ++ b :: [])
      ++ calls_ok (map (publish_params alice demo) [a])
      ++ [EvPublishCall (publish_params alice demo b);
          EvPublishSettled (Some {| err_message := js "Conflict" |})] /\
  published (trace out.2) = [] ++ map (publish_params alice demo) ([a] ++ [b]) /\
  remote out.2 = [publish_params alice demo a].
Proof.
  intros a b alice demo.
  apply (rejected_call_stops_publishing (env := demo_env [js "dir/b.txt"])
           _ alice demo demo_blob demo_archive [a] b []
           [publish_params alice demo a] [publish_params alice demo a]
           {| err_message := js "Conflict" |} (demo_world [js "dir/b.txt"])).
  - split; [reflexivity | | reflexivity | reflexivity].
    exists {[ js "username" := VArr [js "alice"]; js "repoName" := VArr [js "demo"] ]},
      {[ js "file" := [upload demo_blob] ]}, (upload demo_blob), [].
    repeat split; vm_compute; reflexivity.
  - reflexivity.
  - vm_compute. repeat constructor.
  - vm_compute. reflexivity.
  - vm_compute. reflexivity.
Defined.

(** C2. For an archive with N entries that are not directories and M that
    are, all of whose files decompress: the reader resolves to exactly N
    files, one per entry that is not a directory and in the same order,
    each with the name of its entry as it is and the text of its entry;
    the M directories give no file; reading issues no publish call; and
    what the handler then publishes is a first stretch of those files. *)
Theorem archive_reader_one_file_per_entry {env : Env}
    (loadedZip : list (jsstring * ZipObject)) (n m : nat) (w : World env) :
  length (file_entries loadedZip) = n ->
  length (filter (fun entry => dir entry.2 = true) loadedZip) = m ->
  Forall (fun entry => exists content_, async_string entry.2 = inr content_)
    (file_entries loadedZip) ->
  exists files,
    read_archive loadedZip w = (inr files, log w (reading files)) /\
    length files = n /\
    (length files + m)%nat = length loadedZip /\
    Forall2 read_from (file_entries loadedZip) files /\
    map file_path files = map fst (file_entries loadedZip) /\
    published (reading files) = [] /\
    forall request username repoName zipData,
      Submitted request username repoName zipData ->
      loadAsync env zipData = inr loadedZip ->
      exists k,
        published (trace (handleDeployRequest request w).2) =
        published (trace w) ++ map (publish_params username repoName) (take k files).
Proof.
  intros Hn Hm Hvalid.
  destruct (read_from_exists _ Hvalid) as [files Hread]. exists files.
  assert (Hlen : length files = n) by (by rewrite <- (Forall2_length _ _ _ Hread)).
  split; [by apply read_archive_ok|]. split; [exact Hlen|].
  split; [rewrite Hlen, <- Hn, <- Hm; apply entries_partition|].
  split; [exact Hread|]. split; [by apply read_from_paths|].
  split; [apply published_reading|].
  intros request username repoName zipData Hs Hl.
  exact (handle_published request username repoName zipData loadedZip files w Hs Hl Hread).
Qed.

Lemma archive_reader_one_file_per_entry_witness :
  exists files,
    read_archive demo_archive (demo_world []) =
      (inr files, log (demo_world []) (reading files)) /\
    length files = 2%nat /\
    (length files + 1)%nat = length demo_archive /\
    Forall2 read_from (file_entries demo_archive) files /\
    map file_path files = map fst (file_entries demo_archive) /\
    published (reading files) = [] /\
    forall request username repoName zipData,
      Submitted request username repoName zipData ->
      loadAsync (demo_env []) zipData = inr demo_archive ->
      exists k,
        published (trace (handleDeployRequest request (demo_world [])).2) =
        published (trace (demo_world [])) ++
        map (publish_params username repoName) (take k files).
Proof.
  apply (archive_reader_one_file_per_entry (env := demo_env []) demo_archive 2 1).
  - reflexivity.
  - reflexivity.
  - vm_compute. repeat constructor; eexists; reflexivity.
Defined.

(** With a file object that hands over its bytes, an archive that has
    no entry other than directories (none at all, or directories only)
    brings the handler to the end of [try]: no publish call is issued,
    the service is left as it was, and the answer is the fixed message
    with status 200. *)
Lemma no_files_nothing_published {env : Env} (request : Request)
    (username repoName : JsValue) (zipData : list N)
    (loadedZip : list (jsstring * ZipObject)) (w : World env) :
  Submitted request username repoName zipData ->
  loadAsync env zipData = inr loadedZip ->
  file_entries loadedZip = [] ->
  let out := handleDeployRequest request w in
  out.1 = inr {| body := js "Proyek berhasil di-deploy!"; status := 200 |} /\
  trace out.2 = trace w ++ [EvArrayBuffer; EvLoadAsync zipData] /\
  published (trace out.2) = published (trace w) /\
  remote out.2 = remote w.
Proof.
  intros Hs Hl Hnone out. subst out.
  assert (Hread : Forall2 read_from (file_entries loadedZip) [])
    by (rewrite Hnone; constructor).
  rewrite (handle_deployed _ _ _ _ _ _ (remote w) w Hs Hl Hread eq_refl).
  cbn [fst snd trace remote]. repeat split.
  by rewrite published_app, app_nil_r.
Qed.

Lemma no_files_nothing_published_witness :
  let out :=
    handleDeployRequest
      (post (js "alice") (js "demo") {[ js "file" := [upload dirs_blob] ]})
      (demo_world []) in
  out.1 = inr {| body := js "Proyek berhasil di-deploy!"; status := 200 |} /\
  trace out.2 = [] ++ [EvArrayBuffer; EvLoadAsync dirs_blob] /\
  published (trace out.2) = [] /\
  remote out.2 = [].
Proof.
  apply (no_files_nothing_published (env := demo_env [])
           _ (VStr (js "alice")) (VStr (js "demo")) dirs_blob only_directories
           (demo_world [])).
  - split; [reflexivity | | reflexivity | reflexivity].
    exists {[ js "username" := VArr [js "alice"]; js "repoName" := VArr [js "demo"] ]},
      {[ js "file" := [upload dirs_blob] ]}, (upload dirs_blob), [].
    repeat split; vm_compute; reflexivity.
  - reflexivity.
  - reflexivity.
Defined.

(** C10, where the code departs from it.  A POST with username [alice],
    repoName [demo] and an uploaded archive, as formidable hands it
    over: whatever the archive holds (no entry at all, say) and whatever
    the archive library and the hosting service would do,
    [zipFile.arrayBuffer()] throws, the [catch] clause answers, and the
    status is 500 with the engine's message, not 200 with the fixed
    message; the archive library has not been called. *)
Theorem empty_archive_upload_answers_500 {env : Env} (w : World env) :
  handleDeployRequest
    (post (js "alice") (js "demo") {[ js "file" := [formidable_file] ]}) w =
  (inr {| body := js "Kesalahan deployment: zipFile.arrayBuffer is not a function";
          status := 500 |},
   {| remote := remote w; trace := trace w ++ [EvArrayBuffer] |}).
Proof.
  rewrite (handle_buffer_rejected _
             {[ js "username" := VArr [js "alice"]; js "repoName" := VArr [js "demo"] ]}
             {[ js "file" := [formidable_file] ]} formidable_file [] not_a_function);
    [reflexivity | reflexivity | reflexivity | vm_compute; reflexivity
    | vm_compute; reflexivity | reflexivity | reflexivity].
Qed.

(** C6. Whatever the request and whatever the collaborators answer: at
    the moment a publish call is issued, the archive has been loaded and
    every one of its files has been decompressed; the calls issued so
    far are those for the files before this one, in the order of the
    reader, and each of them has resolved; the next thing to happen is
    that this call settles; and after a rejection nothing happens. *)
Theorem publishing_after_reading_in_sequence {env : Env} (request : Request)
    (w : World env) (t1 : list Event) (p : PublishParams) (t2 : list Event) :
  trace w = [] ->
  trace (handleDeployRequest request w).2 = t1 ++ EvPublishCall p :: t2 ->
  exists username repoName zipData loadedZip files k file r t3,
    loadAsync env zipData = inr loadedZip /\
    Forall2 read_from (file_entries loadedZip) files /\
    files !! k = Some file /\
    p = publish_params username repoName file /\
    t1 = [EvArrayBuffer; EvLoadAsync zipData] ++ reading files
           ++ calls_ok (map (publish_params username repoName) (take k files)) /\
    t2 = EvPublishSettled r :: t3 /\
    (r <> None -> t3 = []).
Proof.
  intros Hw Ht.
  destruct (handle_call _ _ _ _ _ Hw Ht)
    as (username & repoName & zipData & loadedZip & files & k & file & r & t3
        & _ & H).
  by exists username, repoName, zipData, loadedZip, files, k, file, r, t3.
Qed.

Lemma publishing_after_reading_in_sequence_witness :
  let a := {| file_path := js "a.txt"; file_content := js "hello" |} in
  let b := {| file_path := js "dir/b.txt"; file_content := js "world" |} in
  let alice := VStr (js "alice") in
  let demo := VStr (js "demo") in
  exists username repoName zipData loadedZip files k file r t3,
    loadAsync (demo_env []) zipData = inr loadedZip /\
    Forall2 read_from (file_entries loadedZip) files /\
    files !! k = Some file /\
    publish_params alice demo b = publish_params username repoName file /\
    [EvArrayBuffer; EvLoadAsync demo_blob] ++ reading [a; b]
      ++ calls_ok [publish_params alice demo a]
    = [EvArrayBuffer; EvLoadAsync zipData] ++ reading files
        ++ calls_ok (map (publish_params username repoName) (take k files)) /\
    [EvPublishSettled None] = EvPublishSettled r :: t3 /\
    (r <> None -> t3 = []).
Proof.
  intros a b alice demo.
  apply (publishing_after_reading_in_sequence (env := demo_env [])
           (post (js "alice") (js "demo") {[ js "file" := [upload demo_blob] ]})
           (demo_world [])).
  - reflexivity.
  - vm_compute. reflexivity.
Defined.



(** C8. Only the text fields go through the sanitizer.  Whatever the
    request and whatever the collaborators answer, every publish call
    that is issued is for an entry of the loaded archive that is not a
    directory; its path is the entry's relative path as [forEach] gave
    it, and its content is the base64 text of the entry's text: it reads
    back as the UTF-8 bytes of that text, and as the text itself when
    every surrogate in it is paired.  No tag is stripped and no path is
    rewritten.  Owner and repository are the sanitized fields. *)
Theorem archive_entries_not_sanitized {env : Env} (request : Request)
    (w : World env) (p : PublishParams) :
  trace w = [] ->
  EvPublishCall p ∈ trace (handleDeployRequest request w).2 ->
  exists fields files zipData loadedZip relativePath zipEntry content_,
    form_parse request = inr (fields, files) /\
    loadAsync env zipData = inr loadedZip /\
    (relativePath, zipEntry) ∈ loadedZip /\
    dir zipEntry = false /\
    async_string zipEntry = inr content_ /\
    path p = relativePath /\
    content p = base64_encode (utf8_encode content_) /\
    base64_decode (content p) = Some (utf8_encode content_) /\
    (well_formed content_ = true ->
     base64_decode (content p) ≫= utf8_decode = Some content_) /\
    owner p = get_property (sanitizeInput fields) (js "username") /\
    repo p = get_property (sanitizeInput fields) (js "repoName").
Proof.
  intros Hw Hp.
  destruct (handle_call_entry _ _ _ Hw Hp)
    as (username & repoName & zipData & loadedZip & [relativePath zipEntry] & file
        & [_ (fields & files & _ & _ & Hf & -> & -> & _) _ _]
        & Hl & Hin & Hdir & [Hpath Hcontent] & ->).
  exists fields, files, zipData, loadedZip, relativePath, zipEntry, (file_content file).
  cbn [publish_params path content owner repo]. simpl in Hdir, Hpath, Hcontent.
  repeat (split; [done|]). split; [apply base64_decode_Buffer|].
  split; [apply Buffer_reads_back | done].
Qed.

Lemma archive_entries_not_sanitized_witness :
  let p :=
    publish_params (VStr (js "alice")) (VStr (js "demo"))
      {| file_path := js "<b>/../x.txt"; file_content := js "<i>hi</i>" |} in
  strip_tags (js "<b>/../x.txt") = js "/../x.txt" /\
  strip_tags (js "<i>hi</i>") = js "hi" /\
  path p = js "<b>/../x.txt" /\
  base64_decode (content p) ≫= utf8_decode = Some (js "<i>hi</i>") /\
  exists fields files zipData loadedZip relativePath zipEntry content_,
    form_parse (post (js "<u>alice</u>") (js "demo") {[ js "file" := [upload tagged_blob] ]})
      = inr (fields, files) /\
    loadAsync (demo_env []) zipData = inr loadedZip /\
    (relativePath, zipEntry) ∈ loadedZip /\
    dir zipEntry = false /\
    async_string zipEntry = inr content_ /\
    path p = relativePath /\
    content p = base64_encode (utf8_encode content_) /\
    base64_decode (content p) = Some (utf8_encode content_) /\
    (well_formed content_ = true ->
     base64_decode (content p) ≫= utf8_decode = Some content_) /\
    owner p = get_property (sanitizeInput fields) (js "username") /\
    repo p = get_property (sanitizeInput fields) (js "repoName").
Proof.
  intros p.
  split; [vm_compute; reflexivity|]. split; [vm_compute; reflexivity|].
  split; [reflexivity|]. split; [vm_compute; reflexivity|].
  apply (archive_entries_not_sanitized (env := demo_env []) _ (demo_world []) p).
  - reflexivity.
  - vm_compute. do 4 apply list_elem_of_further. apply list_elem_of_here.
Defined.

(** C4, where the code departs from it.  A POST with username [alice],
    repoName [demo] and no uploaded file: reading [files['file'][0]]
    throws, the [catch] clause answers, and the status is 500 with the
    engine's message, not 400 with [Data tidak lengkap.]; nothing has
    been decompressed or published. *)
Theorem missing_file_answers_500 :
  handleDeployRequest (post (js "alice") (js "demo") ∅) (demo_world []) =
  (inr {| body :=
            js "Kesalahan deployment: Cannot read properties of undefined (reading '0')";
          status := 500 |},
   demo_world []).
Proof.
  rewrite (file_missing (env := demo_env []) _
             {[ js "username" := VArr [js "alice"]; js "repoName" := VArr [js "demo"] ]} ∅);
    [reflexivity | reflexivity | reflexivity | vm_compute; reflexivity
    | vm_compute; reflexivity | reflexivity].
Qed.

(** C5 as stated fails: an upload that is not an archive is answered
    with status 500, which is no 4xx status. *)
Lemma invalid_archive_not_client_error :
  let request := post (js "alice") (js "demo") {[ js "file" := [upload [1; 2]] ]} in
  loadAsync (demo_env []) [1; 2] = inl not_a_zip /\
  ~ (exists response w',
       handleDeployRequest request (demo_world []) = (inr response, w') /\
       400 <= status response < 500 /\
       published (trace w') = []).
Proof.
  split; [reflexivity|].
  intros (response & w' & H & Hstatus & _).
  vm_compute in H. injection H as <- _. simpl in Hstatus. lia.
Qed.

(** C5, amended.  For a POST whose form parsed, whose [username] and
    [repoName] are not empty after sanitization and which has an
    uploaded file that is no archive (whatever bytes the file hands
    over, [loadAsync] rejects them): something is thrown, by
    [zipFile.arrayBuffer()] or else by [loadAsync]; the handler answers
    with status 500 and the message of what was thrown behind the fixed
    prefix; no publish call is issued and the service is left as it
    was. *)
Theorem invalid_upload_answers_500 {env : Env} (request : Request)
    (fields : gmap jsstring JsValue) (files : gmap jsstring (list File))
    (zipFile : File) (others : list File) (w : World env) :
  method request = js "POST" ->
  form_parse request = inr (fields, files) ->
  not_ (get_property (sanitizeInput fields) (js "username")) = false ->
  not_ (get_property (sanitizeInput fields) (js "repoName")) = false ->
  files !! js "file" = Some (zipFile :: others) ->
  (forall zipData, arrayBuffer zipFile = inr zipData ->
     exists e, loadAsync env zipData = inl e) ->
  let out := handleDeployRequest request w in
  exists e,
    (arrayBuffer zipFile = inl e \/
     exists zipData, arrayBuffer zipFile = inr zipData /\ loadAsync env zipData = inl e) /\
    out.1 = inr {| body := js "Kesalahan deployment: " ++ err_message e; status := 500 |} /\
    published (trace out.2) = published (trace w) /\
    remote out.2 = remote w.
Proof.
  intros Hm Hf Hu Hr Hfile Hinvalid out. subst out.
  destruct (arrayBuffer zipFile) as [e|zipData] eqn:Hbuf.
  - exists e. split; [by left|].
    rewrite (handle_buffer_rejected _ _ _ _ _ _ w Hm Hf Hu Hr Hfile Hbuf).
    cbn [fst snd trace remote log]. repeat split.
    by rewrite published_app, app_nil_r.
  - destruct (Hinvalid zipData eq_refl) as [e Hl]. exists e.
    split; [right; by exists zipData|].
    assert (Hs : Submitted request (get_property (sanitizeInput fields) (js "username"))
                   (get_property (sanitizeInput fields) (js "repoName")) zipData).
    { split; [exact Hm | | exact Hu | exact Hr].
      exists fields, files, zipFile, others. by repeat split. }
    rewrite (handle_load_rejected _ _ _ _ _ _ Hs Hl).
    cbn [fst snd trace remote log]. repeat split.
    by rewrite published_app, app_nil_r.
Qed.

Lemma invalid_upload_answers_500_witness :
  (let out :=
     handleDeployRequest
       (post (js "alice") (js "demo") {[ js "file" := [formidable_file] ]})
       (demo_world []) in
   exists e,
     (arrayBuffer formidable_file = inl e \/
      exists zipData,
        arrayBuffer formidable_file = inr zipData /\
        loadAsync (demo_env []) zipData = inl e) /\
     out.1 = inr {| body := js "Kesalahan deployment: " ++ err_message e; status := 500 |} /\
     published (trace out.2) = published (trace (demo_world [])) /\
     remote out.2 = remote (demo_world [])) /\
  (let out :=
     handleDeployRequest
       (post (js "alice") (js "demo") {[ js "file" := [upload [1; 2]] ]})
       (demo_world []) in
   exists e,
     (arrayBuffer (upload [1; 2]) = inl e \/
      exists zipData,
        arrayBuffer (upload [1; 2]) = inr zipData /\
        loadAsync (demo_env []) zipData = inl e) /\
     out.1 = inr {| body := js "Kesalahan deployment: " ++ err_message e; status := 500 |} /\
     published (trace out.2) = published (trace (demo_world [])) /\
     remote out.2 = remote (demo_world [])).
Proof.
  split.
  - apply (invalid_upload_answers_500 (env := demo_env []) _
             {[ js "username" := VArr [js "alice"]; js "repoName" := VArr [js "demo"] ]}
             {[ js "file" := [formidable_file] ]} formidable_file [] (demo_world []));
      [reflexivity | reflexivity | vm_compute; reflexivity | vm_compute; reflexivity
      | reflexivity | ].
    intros zipData H. discriminate H.
  - apply (invalid_upload_answers_500 (env := demo_env []) _
             {[ js "username" := VArr [js "alice"]; js "repoName" := VArr [js "demo"] ]}
             {[ js "file" := [upload [1; 2]] ]} (upload [1; 2]) [] (demo_world []));
      [reflexivity | reflexivity | vm_compute; reflexivity | vm_compute; reflexivity
      | reflexivity | ].
    intros zipData [= <-]. exists not_a_zip. reflexivity.
Defined.


(** * Further properties *)

(** ** The sanitizer *)

(** X1. The texts the sanitizer leaves as they are, are exactly those in
    which every [<] is the last character or is followed by [>]. *)
Theorem strip_tags_fixed_iff (s : jsstring) : strip_tags s = s <-> settled s.
Proof.
  split.
  - intros H. rewrite <- H, strip_tags_scan. apply scan_settled.
  - intros H. rewrite strip_tags_scan. by apply scan_fixed.
Qed.

Lemma Stripped_sublist s o : Stripped s o -> o `sublist_of` s.
Proof.
  induction 1 as [|c s o _ IH|m s o _ _ IH].
  - constructor.
  - by apply sublist_skip.
  - by apply sublist_inserts_l.
Qed.

(** X2. The sanitizer only removes: its result is the text with some
    characters left out, the others in their order, and so is never
    longer than the text. *)
Theorem strip_tags_sublist (s : jsstring) :
  strip_tags s `sublist_of` s /\ (length (strip_tags s) <= length s)%nat.
Proof.
  assert (H : strip_tags s `sublist_of` s) by apply Stripped_sublist, strip_tags_Stripped.
  split; [exact H | by apply sublist_length].
Qed.

(** X3. The sanitized mapping has the keys of the field mapping, except
    [__proto__], which an assignment to a plain object never makes an own
    property. *)
Theorem sanitizeInput_dom (fields : gmap jsstring JsValue) :
  dom (sanitizeInput fields) = dom fields ∖ {[ js "__proto__" ]}.
Proof.
  apply set_eq. intros key.
  rewrite elem_of_difference, !elem_of_dom, elem_of_singleton, sanitizeInput_lookup.
  destruct (decide (key = js "__proto__")) as [->|Hne].
  - split; [by intros [? ?] | by intros [_ []]].
  - rewrite fmap_is_Some. split; [intros H; by split | by intros [H _]].
Qed.

(** ** The deploy handler, request by request *)

Section Outcome.
Context {env : Env}.
Implicit Types (w : World env).

Lemma get_sanitized (fields : gmap jsstring JsValue) (key : jsstring) :
  key <> js "__proto__" ->
  get_property (sanitizeInput fields) key =
  match fields !! key with
  | None => VUndefined
  | Some v => VStr (strip_tags (String_of v))
  end.
Proof.
  intros Hne. unfold get_property. rewrite sanitizeInput_lookup, decide_False by exact Hne.
  by destruct (fields !! key).
Qed.

Lemma field_empty_not_ (fields : gmap jsstring JsValue) (key : jsstring) :
  key <> js "__proto__" ->
  field_empty fields key <-> not_ (get_property (sanitizeInput fields) key) = true.
Proof.
  intros Hne. rewrite get_sanitized by exact Hne. unfold field_empty.
  destruct (fields !! key) as [v|]; [|done]. simpl.
  destruct (strip_tags (String_of v)); naive_solver.
Qed.

Lemma Promise_all_rejected filePromises : forall w e w',
  Promise_all filePromises w = (inl e, w') -> inl e ∈ filePromises.
Proof.
  induction filePromises as [|[e0|file] l IH]; intros w e w' H.
  - discriminate.
  - injection H as -> _. apply list_elem_of_here.
  - cbn [Promise_all] in H. unfold bind, emit, ret in H.
    destruct (Promise_all l (log w [EvExtracted (file_path file)])) as [[e1|files] w1] eqn:E;
      [|discriminate].
    injection H as -> _. apply list_elem_of_further. by eapply IH.
Qed.

Lemma read_archive_rejected loadedZip w e w' :
  read_archive loadedZip w = (inl e, w') ->
  exists entry, entry ∈ file_entries loadedZip /\ async_string entry.2 = inl e.
Proof.
  unfold read_archive, bind. rewrite forEach_push_run. intros H.
  apply Promise_all_rejected in H. apply list_elem_of_fmap in H as (entry & H & Hin).
  exists entry. split; [exact Hin|].
  unfold async_then in H. destruct (async_string entry.2); [congruence | discriminate].
Qed.

(** Every run of the handler is of one of six kinds. *)
Lemma handle_outcome request w :
  (method request <> js "POST" /\ handleDeployRequest request w = (inr not_allowed, w)) \/
  (exists e, method request = js "POST" /\ form_parse request = inl e /\
     handleDeployRequest request w = (inl e, w)) \/
  (handleDeployRequest request w = (inr incomplete_data, w)) \/
  (exists e w', handleDeployRequest request w = (inr (failed e), w') /\
     remote w' = remote w /\ published (trace w') = published (trace w)) \/
  (exists username repoName zipData loadedZip files r',
     Submitted request username repoName zipData /\
     loadAsync env zipData = inr loadedZip /\
     Forall2 read_from (file_entries loadedZip) files /\
     accepts env (map (publish_params username repoName) files) (remote w) = Some r' /\
     handleDeployRequest request w =
       (inr deployed,
        {| remote := r';
           trace := trace w ++ [EvArrayBuffer; EvLoadAsync zipData] ++ reading files
                      ++ calls_ok (map (publish_params username repoName) files) |})) \/
  (exists username repoName zipData loadedZip pre file post r1 e r2,
     Submitted request username repoName zipData /\
     loadAsync env zipData = inr loadedZip /\
     Forall2 read_from (file_entries loadedZip) (pre ++ file :: post) /\
     accepts env (map (publish_params username repoName) pre) (remote w) = Some r1 /\
     createOrUpdateFileContents env (publish_params username repoName file) r1
       = (Some e, r2) /\
     handleDeployRequest request w =
       (inr (failed e),
        {| remote := r2;
           trace := trace w ++ [EvArrayBuffer; EvLoadAsync zipData]
                      ++ reading (pre ++ file :: post)
                      ++ calls_ok (map (publish_params username repoName) pre)
                      ++ [EvPublishCall (publish_params username repoName file);
                          EvPublishSettled (Some e)] |})).
Proof.
  destruct (decide (method request = js "POST")) as [Hm|Hm].
  2:{ left. split; [exact Hm|]. unfold handleDeployRequest.
      by rewrite bool_decide_eq_false_2. }
  destruct (form_parse request) as [e|[fields files]] eqn:Hf.
  { right; left. exists e. repeat split; [exact Hm|]. unfold handleDeployRequest.
    rewrite bool_decide_eq_true_2 by exact Hm. cbn [negb]. by rewrite Hf. }
  set (username := get_property (sanitizeInput fields) (js "username")).
  set (repoName := get_property (sanitizeInput fields) (js "repoName")).
  destruct (not_ username) eqn:Hu.
  { do 2 right; left. apply (text_field_missing _ _ _ _ Hm Hf). by left. }
  destruct (not_ repoName) eqn:Hr.
  { do 2 right; left. apply (text_field_missing _ _ _ _ Hm Hf). by right. }
  destruct (files !! js "file") as [[|zipFile others]|] eqn:Hfile.
  - do 2 right; left. rewrite (handle_post _ _ _ _ Hm Hf).
    unfold try_catch, deploy_body, incomplete, files_file_0, bind.
    fold username repoName. by rewrite Hu, Hr, Hfile.
  - destruct (arrayBuffer zipFile) as [e|zipData] eqn:Hbuf.
    + do 3 right; left. exists e, (log w [EvArrayBuffer]).
      rewrite (handle_post _ _ _ _ Hm Hf).
      unfold try_catch, deploy_body, incomplete, files_file_0, bind.
      fold username repoName. rewrite Hu, Hr, Hfile.
      unfold ret, deploy_archive, bind, emit. cbn [head].
      rewrite bool_decide_eq_true_2 by (by eexists). cbn [negb].
      rewrite Hbuf. cbn [await throw]. split; [reflexivity|].
      split; [reflexivity|]. simpl. by rewrite published_app, app_nil_r.
    + assert (Hs : Submitted request username repoName zipData).
      { split; [exact Hm | | exact Hu | exact Hr].
        exists fields, files, zipFile, others. by repeat split. }
      destruct (loadAsync env zipData) as [e|loadedZip] eqn:Hl.
      { do 3 right; left. exists e, (log w [EvArrayBuffer; EvLoadAsync zipData]).
        split; [exact (handle_load_rejected _ _ _ _ _ _ Hs Hl)|].
        split; [reflexivity|]. simpl. by rewrite published_app, app_nil_r. }
      destruct (read_archive loadedZip (log w [EvArrayBuffer; EvLoadAsync zipData]))
        as [[e|extracted] w'] eqn:Hread.
      { do 3 right; left. exists e, w'.
        split; [exact (handle_read_rejected _ _ _ _ loadedZip _ _ _ Hs Hl Hread)|].
        apply read_archive_inv in Hread as (Hrem & Hpub & _). rewrite Hrem, Hpub.
        split; [reflexivity|]. simpl. by rewrite published_app, app_nil_r. }
      apply read_archive_inv in Hread as (_ & _ & Hfiles).
      specialize (Hfiles extracted eq_refl).
      destruct (publish_loop_cases username repoName extracted (remote w))
        as [[r' Hacc] | (pre & file & post & r1 & e & r2 & -> & Hacc & Hfail)].
      * do 4 right; left.
        exists username, repoName, zipData, loadedZip, extracted, r'.
        repeat (split; [done|]).
        exact (handle_deployed _ _ _ _ loadedZip _ _ _ Hs Hl Hfiles Hacc).
      * do 5 right.
        exists username, repoName, zipData, loadedZip, pre, file, post, r1, e, r2.
        repeat (split; [done|]).
        exact (handle_publish_rejected _ _ _ _ loadedZip _ _ _ _ _ _ _ Hs Hl Hfiles Hacc Hfail).
  - do 3 right; left. exists (TypeError_undefined env (js "0")), w.
    split; [by apply (file_missing _ _ _ _ Hm Hf)|]. by split.
Qed.
End Outcome.

(** X4. A POST whose [username] or [repoName] is absent, or empty once
    the tags are stripped, is answered with status 400 and
    [Data tidak lengkap.], whatever was uploaded, and nothing else
    happens: no file is read and no call is issued. *)
Theorem text_fields_required {env : Env} (request : Request)
    (fields : gmap jsstring JsValue) (files : gmap jsstring (list File))
    (w : World env) :
  method request = js "POST" ->
  form_parse request = inr (fields, files) ->
  field_empty fields (js "username") \/ field_empty fields (js "repoName") ->
  handleDeployRequest request w =
  (inr {| body := js "Data tidak lengkap."; status := 400 |}, w).
Proof.
  intros Hm Hf H. apply (text_field_missing _ _ _ _ Hm Hf).
  destruct H as [H|H]; [left | right]; by apply field_empty_not_ in H.
Qed.

Lemma text_fields_required_witness :
  handleDeployRequest
    (post (js "<b>") (js "demo") {[ js "file" := [upload demo_blob] ]}) (demo_world [])
  = (inr {| body := js "Data tidak lengkap."; status := 400 |}, demo_world []).
Proof.
  apply (text_fields_required (env := demo_env []) _
           {[ js "username" := VArr [js "<b>"]; js "repoName" := VArr [js "demo"] ]}
           {[ js "file" := [upload demo_blob] ]}).
  - reflexivity.
  - reflexivity.
  - left. vm_compute. reflexivity.
Defined.

(** X5. The handler answers with status 200, 400, 405 or 500 and no
    other; and it fails to answer only when the request is a POST whose
    form does not parse, with the error of the parser. *)
Theorem handle_answers {env : Env} (request : Request) (w : World env) :
  match (handleDeployRequest request w).1 with
  | inl e => method request = js "POST" /\ form_parse request = inl e
  | inr response =>
      status response = 200 \/ status response = 400 \/
      status response = 405 \/ status response = 500
  end.
Proof.
  destruct (handle_outcome request w)
    as [[_ ->] | [(e & Hm & Hf & ->) | [-> | [(e & w' & -> & _) |
        [(u & r & z & l & fs & r' & _ & _ & _ & _ & ->) |
         (u & r & z & l & pre & f & post & r1 & e & r2 & _ & _ & _ & _ & _ & ->)]]]]];
    simpl; auto.
Qed.

(** X6. An answer with a 4xx status means that nothing happened: no
    file was read, no call was issued, the service is as it was. *)
Theorem client_error_no_effect {env : Env} (request : Request) (w : World env)
    (response : Response) :
  (handleDeployRequest request w).1 = inr response ->
  400 <= status response < 500 ->
  (handleDeployRequest request w).2 = w.
Proof.
  destruct (handle_outcome request w)
    as [[_ ->] | [(e & Hm & Hf & ->) | [-> | [(e & w' & -> & _) |
        [(u & r & z & l & fs & r' & _ & _ & _ & _ & ->) |
         (u & r & z & l & pre & f & post & r1 & e & r2 & _ & _ & _ & _ & _ & ->)]]]]];
    simpl; intros [= <-]; simpl; try reflexivity; lia.
Qed.

Lemma client_error_no_effect_witness :
  (handleDeployRequest
     {| method := js "GET"; form_parse := inl not_a_zip |} (demo_world [js "a.txt"])).2
  = demo_world [js "a.txt"].
Proof.
  apply (client_error_no_effect (env := demo_env [js "a.txt"]) _ _ not_allowed).
  - reflexivity.
  - simpl. lia.
Defined.

(** X7. When a file of the archive does not decompress, the answer is
    status 500 with the message of such a file's error, and no call is
    issued at all, not even for the files that did decompress. *)
Theorem unreadable_file_nothing_published {env : Env} (request : Request)
    (username repoName : JsValue) (zipData : list N)
    (loadedZip : list (jsstring * ZipObject)) (entry : jsstring * ZipObject)
    (e0 : JsError) (w : World env) :
  Submitted request username repoName zipData ->
  loadAsync env zipData = inr loadedZip ->
  entry ∈ file_entries loadedZip ->
  async_string entry.2 = inl e0 ->
  exists e entry',
    entry' ∈ file_entries loadedZip /\ async_string entry'.2 = inl e /\
    (handleDeployRequest request w).1 =
      inr {| body := js "Kesalahan deployment: " ++ err_message e; status := 500 |} /\
    published (trace (handleDeployRequest request w).2) = published (trace w) /\
    remote (handleDeployRequest request w).2 = remote w.
Proof.
  intros Hs Hl Hin He0.
  destruct (read_archive loadedZip (log w [EvArrayBuffer; EvLoadAsync zipData]))
    as [[e|files] w'] eqn:Hread.
  - destruct (read_archive_rejected _ _ _ _ Hread) as (entry' & Hin' & He).
    exists e, entry'. rewrite (handle_read_rejected _ _ _ _ loadedZip _ _ _ Hs Hl Hread).
    apply read_archive_inv in Hread as (Hrem & Hpub & _).
    split; [exact Hin'|]. split; [exact He|]. split; [reflexivity|].
    cbn [snd]. rewrite Hrem, Hpub. simpl. by rewrite published_app, app_nil_r.
  - apply read_archive_inv in Hread as (_ & _ & Hfiles). specialize (Hfiles files eq_refl).
    apply list_elem_of_lookup in Hin as [i Hi].
    destruct (Forall2_lookup_l _ _ _ _ _ Hfiles Hi) as (file & _ & [_ Hc]).
    congruence.
Qed.

Lemma unreadable_file_nothing_published_witness :
  exists e entry',
    entry' ∈ file_entries broken_archive /\ async_string entry'.2 = inl e /\
    (handleDeployRequest
       (post (js "alice") (js "demo") {[ js "file" := [upload demo_blob] ]})
       broken_world).1 =
      inr {| body := js "Kesalahan deployment: " ++ err_message e; status := 500 |} /\
    published
      (trace (handleDeployRequest
                (post (js "alice") (js "demo") {[ js "file" := [upload demo_blob] ]})
                broken_world).2) = published (trace broken_world) /\
    remote (handleDeployRequest
              (post (js "alice") (js "demo") {[ js "file" := [upload demo_blob] ]})
              broken_world).2 = remote broken_world.
Proof.
  apply (unreadable_file_nothing_published (env := broken_env) _
           (VStr (js "alice")) (VStr (js "demo")) demo_blob broken_archive
           (js "b.bin", {| dir := false; async_string := inl corrupted |}) corrupted).
  - split; [reflexivity | | reflexivity | reflexivity].
    exists {[ js "username" := VArr [js "alice"]; js "repoName" := VArr [js "demo"] ]},
      {[ js "file" := [upload demo_blob] ]}, (upload demo_blob), [].
    repeat split; vm_compute; reflexivity.
  - reflexivity.
  - vm_compute. apply list_elem_of_further, list_elem_of_here.
  - reflexivity.
Defined.

(** X8. An answer with status 200 means a complete deployment: the
    archive was loaded, every entry that is not a directory was read,
    and for each of them, in order, exactly one call was issued and
    resolved; the service is in the state those calls left. *)
Theorem success_means_all_published {env : Env} (request : Request) (w : World env)
    (response : Response) :
  (handleDeployRequest request w).1 = inr response ->
  status response = 200 ->
  exists username repoName zipData loadedZip files,
    Submitted request username repoName zipData /\
    loadAsync env zipData = inr loadedZip /\
    Forall2 read_from (file_entries loadedZip) files /\
    published (trace (handleDeployRequest request w).2) =
      published (trace w) ++ map (publish_params username repoName) files /\
    accepts env (map (publish_params username repoName) files) (remote w) =
      Some (remote (handleDeployRequest request w).2) /\
    response = {| body := js "Proyek berhasil di-deploy!"; status := 200 |}.
Proof.
  destruct (handle_outcome request w)
    as [[_ ->] | [(e & Hm & Hf & ->) | [-> | [(e & w' & -> & _) |
        [(u & r & z & l & fs & r' & Hs & Hl & Hread & Hacc & ->) |
         (u & r & z & l & pre & f & post & r1 & e & r2 & _ & _ & _ & _ & _ & ->)]]]]];
    cbn [fst snd]; intros [= <-]; try discriminate.
  intros _. exists u, r, z, l, fs. cbn [trace remote].
  repeat (split; [done|]). split; [|by split].
  by rewrite !published_app, published_reading, published_calls_ok.
Qed.

Lemma success_means_all_published_witness :
  exists username repoName zipData loadedZip files,
    Submitted (post (js "alice") (js "demo") {[ js "file" := [upload demo_blob] ]})
      username repoName zipData /\
    loadAsync (demo_env []) zipData = inr loadedZip /\
    Forall2 read_from (file_entries loadedZip) files /\
    published
      (trace (handleDeployRequest
                (post (js "alice") (js "demo") {[ js "file" := [upload demo_blob] ]})
                (demo_world [])).2) =
      published (trace (demo_world [])) ++ map (publish_params username repoName) files /\
    accepts (demo_env []) (map (publish_params username repoName) files)
      (remote (demo_world [])) =
      Some (remote (handleDeployRequest
                      (post (js "alice") (js "demo") {[ js "file" := [upload demo_blob] ]})
                      (demo_world [])).2) /\
    deployed = {| body := js "Proyek berhasil di-deploy!"; status := 200 |}.
Proof.
  apply (success_means_all_published (env := demo_env [])).
  - vm_compute. reflexivity.
  - reflexivity.
Defined.

(** ** What goes into a publish call *)

Lemma base64_char_in i :
  base64_char i ∈ base64_alphabet \/ base64_char i = ch "=".
Proof.
  unfold base64_char.
  destruct (nth_in_or_default (N.to_nat i) base64_alphabet (ch "=")) as [H|H];
    [left; by apply list_elem_of_In | by right].
Qed.

Lemma base64_encode_shape_upto n : forall bs,
  (length bs <= n)%nat ->
  length (base64_encode bs) = (4 * ((length bs + 2) / 3))%nat /\
  Forall (fun c => c ∈ base64_alphabet \/ c = ch "=") (base64_encode bs).
Proof.
  induction n as [|n IH]; intros bs Hlen.
  { destruct bs; [by split | simpl in Hlen; lia]. }
  destruct bs as [|a [|b [|c rest]]].
  - by split.
  - split; [reflexivity|]. cbn [base64_encode].
    repeat (constructor; [apply base64_char_in || by right|]). constructor.
  - split; [reflexivity|]. cbn [base64_encode].
    repeat (constructor; [apply base64_char_in || by right|]). constructor.
  - destruct (IH rest) as [Hl Hf]; [simpl in Hlen; lia|].
    cbn [base64_encode]. split.
    + rewrite length_app, Hl. cbn [length].
      replace (S (S (S (length rest))) + 2)%nat with ((length rest + 2) + 1 * 3)%nat by lia.
      rewrite Nat.div_add by lia. lia.
    + apply Forall_app. split; [|exact Hf].
      repeat (constructor; [apply base64_char_in|]). constructor.
Qed.

(** X9. The content of a publish call is always well-formed base64,
    whatever the text of the file: four characters for every three bytes
    of its UTF-8 form, rounded up, each of them a letter of the base64
    alphabet or the padding sign. *)
Theorem content_is_base64 (s : jsstring) :
  length (Buffer_from_toString_base64 s)
    = (4 * ((length (utf8_encode s) + 2) / 3))%nat /\
  Forall (fun c => c ∈ base64_alphabet \/ c = ch "=") (Buffer_from_toString_base64 s).
Proof. apply (base64_encode_shape_upto (length (utf8_encode s))). lia. Qed.

(** X10. Two different texts, each with none but paired surrogates, never
    give the same content: nothing of a file's text is lost on the way
    into the call. *)
Theorem distinct_texts_distinct_content (s1 s2 : jsstring) :
  well_formed s1 = true -> well_formed s2 = true -> s1 <> s2 ->
  Buffer_from_toString_base64 s1 <> Buffer_from_toString_base64 s2.
Proof.
  intros H1 H2 Hne Heq. apply Hne.
  apply Buffer_reads_back in H1, H2. rewrite Heq in H1. congruence.
Qed.

Lemma distinct_texts_distinct_content_witness :
  Buffer_from_toString_base64 (js "hello") <> Buffer_from_toString_base64 [0xD83D; 0xDE00].
Proof.
  apply distinct_texts_distinct_content; [reflexivity | reflexivity | discriminate].
Defined.

(** X11. Whatever the request: the owner and the repository of every
    publish call that is issued are strings, not empty, and with no part
    that matches the tag pattern. *)
Theorem publish_owner_repo_clean {env : Env} (request : Request) (w : World env)
    (p : PublishParams) :
  trace w = [] ->
  EvPublishCall p ∈ trace (handleDeployRequest request w).2 ->
  exists u r,
    owner p = VStr u /\ repo p = VStr r /\ u <> [] /\ r <> [] /\
    tag_free u /\ tag_free r.
Proof.
  intros Hw Hp.
  destruct (handle_call_entry _ _ _ Hw Hp)
    as (username & repoName & zipData & loadedZip & entry & file
        & [_ (fields & files & _ & _ & _ & -> & -> & _) Hu Hr] & _ & _ & _ & _ & ->).
  cbn [publish_params owner repo].
  rewrite get_sanitized in Hu |- * by discriminate.
  rewrite get_sanitized in Hr |- * by discriminate.
  destruct (fields !! js "username") as [vu|]; [|discriminate].
  destruct (fields !! js "repoName") as [vr|]; [|discriminate].
  exists (strip_tags (String_of vu)), (strip_tags (String_of vr)).
  split; [reflexivity|]. split; [reflexivity|].
  split; [by destruct (strip_tags (String_of vu))|].
  split; [by destruct (strip_tags (String_of vr))|].
  split; apply strip_tags_tag_free.
Qed.

Lemma publish_owner_repo_clean_witness :
  exists u r,
    owner (publish_params (VStr (js "alice")) (VStr (js "demo"))
             {| file_path := js "<b>/../x.txt"; file_content := js "<i>hi</i>" |}) = VStr u /\
    repo (publish_params (VStr (js "alice")) (VStr (js "demo"))
            {| file_path := js "<b>/../x.txt"; file_content := js "<i>hi</i>" |}) = VStr r /\
    u <> [] /\ r <> [] /\ tag_free u /\ tag_free r.
Proof.
  apply (publish_owner_repo_clean (env := demo_env [])
           (post (js "<u>alice</u>") (js "demo") {[ js "file" := [upload tagged_blob] ]})
           (demo_world [])).
  - reflexivity.
  - vm_compute. do 4 apply list_elem_of_further. apply list_elem_of_here.
Defined.

(** ** A quoted string reads back as the string *)

Lemma below_16_cases (P : N -> Prop) :
  Forall P (map N.of_nat (seq 0 16)) -> forall d, d < 16 -> P d.
Proof.
  intros H d Hd. rewrite Forall_forall in H. apply H.
  rewrite <- (N2Nat.id d). apply list_elem_of_In, in_map, in_seq. lia.
Qed.

Lemma hex_value_digit d : d < 16 -> hex_value (hex_digit d) = Some d.
Proof.
  revert d. apply below_16_cases. vm_compute.
  repeat (constructor; [reflexivity|]). constructor.
Qed.

Lemma read_unicode_escape u rest :
  u < 65536 ->
  read_string_body (unicode_escape u ++ rest) = cons u <$> read_string_body rest.
Proof.
  intros Hu. unfold unicode_escape.
  change (js "\u") with [backslash; ch "u"]. cbn [app read_string_body].
  change (backslash =? quotation_mark) with false.
  rewrite !N.eqb_refl. cbn iota. unfold hex4.
  rewrite !hex_value_digit by div_mod_lia.
  replace ((((u / 4096) mod 16 * 16 + (u / 256) mod 16) * 16 + (u / 16) mod 16) * 16
           + u mod 16) with u by div_mod_lia.
  by destruct (read_string_body rest).
Qed.

Lemma read_simple_escape e v rest :
  simple_escape e = Some v ->
  read_string_body (backslash :: e :: rest) = cons v <$> read_string_body rest.
Proof.
  intros He. cbn [read_string_body].
  change (backslash =? quotation_mark) with false. rewrite N.eqb_refl. cbn iota.
  destruct (N.eqb_spec e (ch "u")) as [->|_]; [discriminate He|].
  rewrite He. by destruct (read_string_body rest).
Qed.

Lemma read_quote_unit u rest :
  read_string_body (quote_unit u ++ rest) = cons u <$> read_string_body rest.
Proof.
  unfold quote_unit.
  destruct (N.eqb_spec u 8) as [->|H8]; [by apply read_simple_escape|].
  destruct (N.eqb_spec u 9) as [->|H9]; [by apply read_simple_escape|].
  destruct (N.eqb_spec u 10) as [->|H10]; [by apply read_simple_escape|].
  destruct (N.eqb_spec u 12) as [->|H12]; [by apply read_simple_escape|].
  destruct (N.eqb_spec u 13) as [->|H13]; [by apply read_simple_escape|].
  destruct (N.eqb_spec u quotation_mark) as [->|Hq]; [by apply read_simple_escape|].
  destruct (N.eqb_spec u backslash) as [->|Hb]; [by apply read_simple_escape|].
  destruct (N.ltb_spec u 32) as [Hlt|Hge].
  - apply read_unicode_escape. lia.
  - cbn [app read_string_body].
    destruct (N.eqb_spec u quotation_mark); [contradiction|].
    destruct (N.eqb_spec u backslash); [contradiction|].
    destruct (N.ltb_spec u 32); [lia | reflexivity].
Qed.

Lemma surrogate_range u :
  is_high_surrogate u = true \/ is_low_surrogate u = true -> 0xD800 <= u < 0xE000.
Proof.
  unfold is_high_surrogate, is_low_surrogate.
  rewrite !andb_true_iff, !N.leb_le, !N.ltb_lt. lia.
Qed.

Lemma read_raw_unit u rest :
  0xD800 <= u ->
  read_string_body (u :: rest) = cons u <$> read_string_body rest.
Proof.
  intros Hu. cbn [read_string_body].
  destruct (N.eqb_spec u quotation_mark) as [->|_]; [unfold quotation_mark in Hu; lia|].
  destruct (N.eqb_spec u backslash) as [->|_]; [unfold backslash in Hu; lia|].
  destruct (N.ltb_spec u 32); [lia | reflexivity].
Qed.

Lemma read_quote_units_upto n : forall s,
  (length s <= n)%nat ->
  read_string_body (quote_units s ++ [quotation_mark]) = Some s.
Proof.
  induction n as [|n IH]; intros s Hlen.
  { destruct s; [reflexivity | simpl in Hlen; lia]. }
  destruct s as [|u s']; [reflexivity|].
  simpl in Hlen. cbn [quote_units].
  destruct (is_high_surrogate u) eqn:Hhigh.
  - pose proof (surrogate_range u (or_introl Hhigh)) as Hu.
    destruct s' as [|v s''].
    + rewrite read_unicode_escape by lia. reflexivity.
    + destruct (is_low_surrogate v) eqn:Hlow.
      * pose proof (surrogate_range v (or_intror Hlow)) as Hv.
        cbn [app]. rewrite !read_raw_unit by lia.
        rewrite IH by (simpl in Hlen; lia). reflexivity.
      * rewrite <- app_assoc, read_unicode_escape by lia.
        rewrite IH by lia. reflexivity.
  - destruct (is_low_surrogate u) eqn:Hlow.
    + pose proof (surrogate_range u (or_intror Hlow)) as Hu.
      rewrite <- app_assoc, read_unicode_escape by lia.
      rewrite IH by lia. reflexivity.
    + rewrite <- app_assoc, read_quote_unit. rewrite IH by lia. reflexivity.
Qed.

(** X12. What [JSON.stringify] writes for a string reads back as that
    string, whatever its characters: quotation marks, backslashes,
    control characters and unpaired surrogates included. *)
Theorem JSON_unquote_quote (s : jsstring) : JSON_unquote (JSON_quote s) = Some s.
Proof.
  unfold JSON_unquote, JSON_quote. rewrite N.eqb_refl.
  apply (read_quote_units_upto (length s)). lia.
Qed.


(** ** The bot handler *)

Section Bot.
Context {site : Site}.
Implicit Types (sw : SiteWorld site) (request : HttpRequest).

Lemma strip_prefix_app pre s : strip_prefix pre (pre ++ s) = Some s.
Proof.
  induction pre as [|c pre IH]; [reflexivity|].
  cbn [app strip_prefix]. by rewrite N.eqb_refl.
Qed.

Lemma JSON_read_stringify key value :
  JSON_read_member key (JSON_stringify_member key value) = Some value.
Proof.
  unfold JSON_read_member, JSON_stringify_member.
  rewrite !app_assoc, <- (app_assoc _ (JSON_quote value)), strip_prefix_app.
  rewrite rev_app_distr. cbn [rev app js]. rewrite N.eqb_refl, rev_involutive.
  apply JSON_unquote_quote.
Qed.

Lemma note_note sw a b : note (note sw a) b = note sw (a ++ b).
Proof. unfold note. simpl. by rewrite app_assoc. Qed.

(** X13. A body that is not [null] and has no prompt, or whose prompt is
    [null], [false], a zero, not a number or the empty string, is
    answered with status 400 and the JSON text of
    [{ error: 'Prompt tidak boleh kosong.' }]; the model is not called
    and nothing is logged. *)
Theorem empty_prompt_rejected request (v : Json) sw :
  json request = inr v ->
  v <> JNull ->
  json_not (prompt_of v) = true ->
  handleBotRequest request sw =
  (inr {| http_body := JSON_stringify_member (js "error") (js "Prompt tidak boleh kosong.");
          http_status := 400;
          content_type := Some (js "application/json") |}, sw).
Proof.
  intros Hj Hv Hp. unfold handleBotRequest, then_. rewrite Hj. cbn [settled_ unit_].
  destruct v; try contradiction; cbn [destructure_prompt unit_]; by rewrite Hp.
Qed.

(** X14. When the model fails, either by rejecting the call or by
    throwing when its text is taken, the answer is status 500 with the
    JSON text of [{ error: 'Terjadi kesalahan saat menghubungi bot.' }],
    the same whatever the error was: the error goes to the console and
    not to the caller. *)
Theorem model_failure_hidden request (v : Json) (e : JsError)
    (outcome : JsError + Generated) (ai' : Model site) sw :
  json request = inr v ->
  v <> JNull ->
  json_not (prompt_of v) = false ->
  generateContent site (prompt_of v) (ai sw) = (outcome, ai') ->
  outcome = inl e \/ (exists g, outcome = inr g /\ text g = inl e) ->
  exists events,
    handleBotRequest request sw =
    (inr {| http_body :=
              JSON_stringify_member (js "error")
                (js "Terjadi kesalahan saat menghubungi bot.");
            http_status := 500;
            content_type := Some (js "application/json") |},
     {| hub := hub sw; ai := ai'; db := db sw; clock := clock sw;
        journal := journal sw ++ events
                     ++ [EvConsoleError (js "Kesalahan AI:") e] |}) /\
    (events = [EvGenerateContent (prompt_of v)] \/
     events = [EvGenerateContent (prompt_of v); EvResponseText]).
Proof.
  intros Hj Hv Hp Hg Hout. unfold handleBotRequest, then_ at 1 2. rewrite Hj.
  cbn [settled_ unit_].
  assert (Hd : destructure_prompt (site := site) v sw = (inr (prompt_of v), sw))
    by (by destruct v).
  rewrite Hd, Hp.
  unfold try_, then_, await_generateContent, response_text, then_, record_.
  rewrite Hg.
  destruct Hout as [-> | (g & -> & Ht)].
  - exists [EvGenerateContent (prompt_of v)]. split; [|by left].
    unfold unit_, note. simpl. by rewrite <- app_assoc.
  - exists [EvGenerateContent (prompt_of v); EvResponseText]. split; [|by right].
    rewrite Ht. unfold settled_, raise, unit_, note. simpl.
    by rewrite <- !app_assoc.
Qed.

(** X15. When the model answers with a text, the answer is status 200,
    of type [application/json], and its body is the JSON text of
    [{ response: text }]: read as JSON, it gives the text back character
    for character, whatever the model wrote. *)
Theorem bot_answer_reads_back request (v : Json) (g : Generated) (t : jsstring)
    (ai' : Model site) sw :
  json request = inr v ->
  v <> JNull ->
  json_not (prompt_of v) = false ->
  generateContent site (prompt_of v) (ai sw) = (inr g, ai') ->
  text g = inr t ->
  exists response,
    handleBotRequest request sw =
    (inr response,
     {| hub := hub sw; ai := ai'; db := db sw; clock := clock sw;
        journal := journal sw ++ [EvGenerateContent (prompt_of v); EvResponseText] |}) /\
    http_status response = 200 /\
    content_type response = Some (js "application/json") /\
    http_body response = js "{" ++ JSON_quote (js "response") ++ js ":"
                           ++ JSON_quote t ++ js "}" /\
    JSON_read_member (js "response") (http_body response) = Some t.
Proof.
  intros Hj Hv Hp Hg Ht. unfold handleBotRequest, then_ at 1 2. rewrite Hj.
  cbn [settled_ unit_].
  assert (Hd : destructure_prompt (site := site) v sw = (inr (prompt_of v), sw))
    by (by destruct v).
  rewrite Hd, Hp.
  unfold try_, then_, await_generateContent, response_text, then_, record_.
  rewrite Hg, Ht. cbn [settled_ unit_].
  eexists. split.
  - unfold note. simpl. rewrite <- app_assoc. reflexivity.
  - cbn [json_response http_status content_type http_body].
    repeat split. apply JSON_read_stringify.
Qed.

(** X16. The handler answers with status 200, 400 or 500 and always with
    the type [application/json]; it fails to answer only when the body
    is not JSON, with the error of the parser, or is [null]. *)
Theorem bot_answers request sw :
  match (handleBotRequest request sw).1 with
  | inl e => json request = inl e \/ json request = inr JNull
  | inr response =>
      (http_status response = 200 \/ http_status response = 400 \/
       http_status response = 500) /\
      content_type response = Some (js "application/json")
  end.
Proof.
  unfold handleBotRequest, then_ at 1 2.
  destruct (json request) as [e|v]; [by left|]. cbn [settled_ unit_].
  assert (Hnull : v = JNull \/ v <> JNull) by (destruct v; auto; by right).
  destruct Hnull as [->|Hv]; [by right|].
  assert (Hd : destructure_prompt (site := site) v sw = (inr (prompt_of v), sw))
    by (by destruct v).
  rewrite Hd. destruct (json_not (prompt_of v)); [simpl; auto|].
  unfold try_, then_, await_generateContent, response_text, then_, record_.
  destruct (generateContent site (prompt_of v) (ai sw)) as [[e|g] ai'];
    [simpl; auto|].
  destruct (text g) as [e|t]; simpl; auto.
Qed.
End Bot.


(** ** Counting a visit *)

Section Tracking.
Context {site : Site}.
Implicit Types (sw : SiteWorld site) (request : HttpRequest).

Lemma visitor_ip_address request sw :
  visitor_ip request sw =
  match address_of request with
  | Some ip => (inr ip, sw)
  | None => (inl (TypeError_undefined (hosting site) (js "remoteAddress")), sw)
  end.
Proof.
  unfold visitor_ip, address_of.
  destruct (header_x_forwarded_for request) as [[|c forwarded]|];
    try reflexivity; by destruct (connection request).
Qed.

(** A visit with an address, step by step. *)
Lemma tracking_run request sw (ip : option jsstring) :
  address_of request = Some ip ->
  handleVisitorTracking request sw =
  let day := take 10 (toISOString site (clock sw)) in
  let selected := select_visitors site ip day (db sw) in
  if no_rows (data selected.1) then
    let row := {| ip_address := ip; user_agent := header_user_agent request;
                  timestamp := toISOString site (S (clock sw)) |} in
    let inserted := insert_visitor site row selected.2 in
    (inr tt,
     {| hub := hub sw; ai := ai sw; db := inserted.2; clock := S (S (clock sw));
        journal := journal sw ++ [EvSelect ip day; EvInsert row]
                     ++ match inserted.1 with
                        | Some e => [EvConsoleError (js "Gagal melacak pengunjung:") e]
                        | None => []
                        end |})
  else
    (inr tt,
     {| hub := hub sw; ai := ai sw; db := selected.2; clock := S (clock sw);
        journal := journal sw ++ [EvSelect ip day] |}).
Proof.
  intros Hip. unfold handleVisitorTracking, then_ at 1.
  rewrite visitor_ip_address, Hip.
  unfold then_, new_Date_toISOString, await_select, await_insert. cbn [clock db journal hub ai].
  destruct (select_visitors site ip (take 10 (toISOString site (clock sw))) (db sw))
    as [selected d1]. cbn [fst snd].
  destruct (no_rows (data selected)); [|reflexivity].
  cbn [clock db journal hub ai].
  destruct (insert_visitor site _ d1) as [[e|] d2]; cbn [fst snd].
  - unfold record_, note. cbn [clock db journal hub ai]. by rewrite <- !app_assoc.
  - unfold unit_. by rewrite <- app_assoc.
Qed.

Lemma tracking_page_run request sw (ip : option jsstring) :
  address_of request = Some ip ->
  handleVisitorTracking_page request sw =
  let day := take 10 (toISOString site (clock sw)) in
  let selected := select_visitors site ip day (db sw) in
  if no_rows (data selected.1) then
    let row := {| ip_address := ip; user_agent := header_user_agent request;
                  timestamp := toISOString site (S (clock sw)) |} in
    let inserted := insert_visitor site row selected.2 in
    (inr tt,
     {| hub := hub sw; ai := ai sw; db := inserted.2; clock := S (S (clock sw));
        journal := journal sw ++ [EvSelect ip day; EvInsert row] |})
  else
    (inr tt,
     {| hub := hub sw; ai := ai sw; db := selected.2; clock := S (clock sw);
        journal := journal sw ++ [EvSelect ip day] |}).
Proof.
  intros Hip. unfold handleVisitorTracking_page, then_ at 1.
  rewrite visitor_ip_address, Hip.
  unfold then_, new_Date_toISOString, await_select, await_insert. cbn [clock db journal hub ai].
  destruct (select_visitors site ip (take 10 (toISOString site (clock sw))) (db sw))
    as [selected d1]. cbn [fst snd].
  destruct (no_rows (data selected)); [|reflexivity].
  cbn [clock db journal hub ai].
  destruct (insert_visitor site _ d1) as [err d2]; cbn [fst snd].
  unfold unit_. by rewrite <- app_assoc.
Qed.

Lemma tracking_no_address request sw :
  address_of request = None ->
  handleVisitorTracking request sw =
    (inl (TypeError_undefined (hosting site) (js "remoteAddress")), sw) /\
  handleVisitorTracking_page request sw =
    (inl (TypeError_undefined (hosting site) (js "remoteAddress")), sw).
Proof.
  intros Hip. unfold handleVisitorTracking, handleVisitorTracking_page, then_.
  by rewrite visitor_ip_address, Hip.
Qed.

(** X17. A visit makes at most one query and writes at most one row, and
    it writes a row only after a query that came back without rows; the
    row carries the address that was queried, the user agent of the
    request and the reading of the clock after the query's; the hosting
    service and the model are never touched. *)
Theorem visit_writes_at_most_once request sw :
  exists evs,
    journal (handleVisitorTracking request sw).2 = journal sw ++ evs /\
    hub (handleVisitorTracking request sw).2 = hub sw /\
    ai (handleVisitorTracking request sw).2 = ai sw /\
    (length (queried evs) <= 1)%nat /\
    (written evs = [] \/
     exists ip day,
       queried evs = [(ip, day)] /\
       address_of request = Some ip /\
       day = take 10 (toISOString site (clock sw)) /\
       no_rows (data (select_visitors site ip day (db sw)).1) = true /\
       written evs =
         [{| ip_address := ip; user_agent := header_user_agent request;
             timestamp := toISOString site (S (clock sw)) |}]).
Proof.
  destruct (address_of request) as [ip|] eqn:Hip.
  - rewrite (tracking_run _ _ _ Hip). cbn zeta.
    destruct (no_rows (data (select_visitors site ip _ (db sw)).1)) eqn:Hrows.
    + eexists. cbn [snd journal hub ai]. split; [reflexivity|].
      split; [reflexivity|]. split; [reflexivity|].
      destruct (insert_visitor site _ _).1; (split; [simpl; lia|]);
        right; exists ip, (take 10 (toISOString site (clock sw))); by repeat split.
    + eexists. cbn [snd journal hub ai]. split; [reflexivity|].
      split; [reflexivity|]. split; [reflexivity|]. split; [simpl; lia | by left].
  - rewrite (proj1 (tracking_no_address _ sw Hip)). exists [].
    cbn [snd]. rewrite app_nil_r. repeat split; [simpl; lia | by left].
Qed.

(** X18. When the query fails and resolves to no data, the visit is
    written all the same: a failed query counts as no visit so far. *)
Theorem failed_query_still_writes request sw (ip : option jsstring)
    (selected : SelectResult) (d1 : Db site) :
  address_of request = Some ip ->
  select_visitors site ip (take 10 (toISOString site (clock sw))) (db sw)
    = (selected, d1) ->
  data selected = None ->
  EvInsert {| ip_address := ip; user_agent := header_user_agent request;
              timestamp := toISOString site (S (clock sw)) |}
    ∈ journal (handleVisitorTracking request sw).2 /\
  db (handleVisitorTracking request sw).2 =
    (insert_visitor site
       {| ip_address := ip; user_agent := header_user_agent request;
          timestamp := toISOString site (S (clock sw)) |} d1).2.
Proof.
  intros Hip Hsel Hdata. rewrite (tracking_run _ _ _ Hip). cbn zeta.
  rewrite Hsel. cbn [fst snd]. rewrite Hdata. cbn [no_rows snd journal db].
  split; [|reflexivity].
  apply elem_of_app. right. apply list_elem_of_further, list_elem_of_here.
Qed.

(** X19. On a table that keeps what was written to it: once a row for an
    address is in, a visit from that address whose first reading of the
    clock falls on the day of the row's stamp makes its query and writes
    nothing. *)
Theorem same_day_visit_not_written_again request sw (row : Visitor) (d0 : Db site) :
  ReadYourWrites site ->
  insert_visitor site row d0 = (None, db sw) ->
  address_of request = Some (ip_address row) ->
  take 10 (toISOString site (clock sw)) = take 10 (timestamp row) ->
  handleVisitorTracking request sw =
  (inr tt,
   {| hub := hub sw; ai := ai sw;
      db := (select_visitors site (ip_address row) (take 10 (timestamp row)) (db sw)).2;
      clock := S (clock sw);
      journal := journal sw ++ [EvSelect (ip_address row) (take 10 (timestamp row))] |}).
Proof.
  intros Hlaw Hins Hip Hday. rewrite (tracking_run _ _ _ Hip). cbn zeta.
  rewrite Hday, (Hlaw _ _ _ Hins). reflexivity.
Qed.

(** X20. The two versions of the tracking function make the same queries
    and write the same rows, leave the table and the clock in the same
    state and settle alike; the one of [index.js] also reports a failed
    insert on the console. *)
Theorem tracking_versions_agree request sw :
  exists evs,
    journal (handleVisitorTracking request sw).2 = journal sw ++ evs /\
    journal (handleVisitorTracking_page request sw).2 = journal sw ++ off_console evs /\
    db (handleVisitorTracking_page request sw).2 = db (handleVisitorTracking request sw).2 /\
    clock (handleVisitorTracking_page request sw).2
      = clock (handleVisitorTracking request sw).2 /\
    (handleVisitorTracking_page request sw).1 = (handleVisitorTracking request sw).1.
Proof.
  destruct (address_of request) as [ip|] eqn:Hip.
  - rewrite (tracking_run _ _ _ Hip), (tracking_page_run _ _ _ Hip). cbn zeta.
    destruct (no_rows (data (select_visitors site ip _ (db sw)).1)).
    + eexists. cbn [snd fst journal db clock]. split; [reflexivity|].
      split; [by destruct (insert_visitor site _ _).1 | by repeat split].
    + eexists. cbn [snd fst journal db clock]. split; [reflexivity|]. by repeat split.
  - destruct (tracking_no_address _ sw Hip) as [-> ->]. exists [].
    cbn [snd fst off_console flat_map]. rewrite app_nil_r. by repeat split.
Qed.
End Tracking.

(** ** The router and the page *)

Section Router.
Context {site : Site}.
Implicit Types (sw : SiteWorld site) (request : HttpRequest).

Lemma bot_run request sw :
  handleBotRequest request sw =
  match json request with
  | inl e => (inl e, sw)
  | inr JNull => (inl (TypeError_null site), sw)
  | inr v =>
      if json_not (prompt_of v) then
        (inr (json_response (js "error") (js "Prompt tidak boleh kosong.") 400), sw)
      else
        match generateContent site (prompt_of v) (ai sw) with
        | (inl e, ai') =>
            (inr bot_failed,
             {| hub := hub sw; ai := ai'; db := db sw; clock := clock sw;
                journal := journal sw ++ [EvGenerateContent (prompt_of v);
                                          EvConsoleError (js "Kesalahan AI:") e] |})
        | (inr g, ai') =>
            match text g with
            | inl e =>
                (inr bot_failed,
                 {| hub := hub sw; ai := ai'; db := db sw; clock := clock sw;
                    journal := journal sw ++ [EvGenerateContent (prompt_of v);
                                              EvResponseText;
                                              EvConsoleError (js "Kesalahan AI:") e] |})
            | inr t =>
                (inr (json_response (js "response") t 200),
                 {| hub := hub sw; ai := ai'; db := db sw; clock := clock sw;
                    journal := journal sw ++ [EvGenerateContent (prompt_of v);
                                              EvResponseText] |})
            end
        end
  end.
Proof.
  unfold handleBotRequest, then_ at 1 2.
  destruct (json request) as [e|v]; [reflexivity|]. cbn [settled_ unit_].
  assert (Hrun : forall prompt,
    (if json_not prompt then
       unit_ (json_response (js "error") (js "Prompt tidak boleh kosong.") 400)
     else
       try_
         (result <-- await_generateContent prompt ;;
          text_ <-- response_text result ;;
          unit_ (json_response (js "response") text_ 200))
         (fun e =>
            _ <-- record_ (EvConsoleError (js "Kesalahan AI:") e) ;;
            unit_ (json_response (js "error")
                     (js "Terjadi kesalahan saat menghubungi bot.") 500))) sw =
    if json_not prompt then
      (inr (json_response (js "error") (js "Prompt tidak boleh kosong.") 400), sw)
    else
      match generateContent site prompt (ai sw) with
      | (inl e, ai') =>
          (inr bot_failed,
           {| hub := hub sw; ai := ai'; db := db sw; clock := clock sw;
              journal := journal sw ++ [EvGenerateContent prompt;
                                        EvConsoleError (js "Kesalahan AI:") e] |})
      | (inr g, ai') =>
          match text g with
          | inl e =>
              (inr bot_failed,
               {| hub := hub sw; ai := ai'; db := db sw; clock := clock sw;
                  journal := journal sw ++ [EvGenerateContent prompt; EvResponseText;
                                            EvConsoleError (js "Kesalahan AI:") e] |})
          | inr t =>
              (inr (json_response (js "response") t 200),
               {| hub := hub sw; ai := ai'; db := db sw; clock := clock sw;
                  journal := journal sw ++ [EvGenerateContent prompt; EvResponseText] |})
          end
      end).
  { intros prompt. destruct (json_not prompt); [reflexivity|].
    unfold try_, then_, await_generateContent, response_text, then_, record_.
    destruct (generateContent site prompt (ai sw)) as [[e|g] ai'].
    - unfold unit_, note. cbn [hub ai db clock journal]. by rewrite <- app_assoc.
    - destruct (text g) as [e|t]; unfold settled_, raise, unit_, note;
        cbn [hub ai db clock journal]; by rewrite <- !app_assoc. }
  destruct v; cbn [destructure_prompt unit_ raise]; try apply Hrun. reflexivity.
Qed.

Lemma bot_leaves_table request sw :
  hub (handleBotRequest request sw).2 = hub sw /\
  db (handleBotRequest request sw).2 = db sw /\
  clock (handleBotRequest request sw).2 = clock sw /\
  exists evs,
    journal (handleBotRequest request sw).2 = journal sw ++ evs /\
    queried evs = [] /\ written evs = [].
Proof.
  rewrite bot_run.
  assert (Hquiet : hub sw = hub sw /\ db sw = db sw /\ clock sw = clock sw /\
    exists evs, journal sw = journal sw ++ evs /\ queried evs = [] /\ written evs = []).
  { repeat split. exists []. by rewrite app_nil_r. }
  destruct (json request) as [e|v]; [exact Hquiet|].
  destruct v; try exact Hquiet;
    (destruct (json_not _); [exact Hquiet|]);
    (destruct (generateContent site _ (ai sw)) as [[e|g] ai'];
      [|destruct (text g) as [e|t]]);
    cbn [snd hub db clock journal]; repeat split; eexists; by split.
Qed.

(** X21. A request for any path other than the two API paths gets the
    page, with status 200 and type [text/html], whatever its method;
    there is no 404.  It counts as a visit, and the answer is the same
    whatever becomes of the counting: when the request has no address to
    count it under, nothing at all is done. *)
Theorem other_paths_get_the_page request (path_ : jsstring) sw :
  pathname request = inr path_ ->
  path_ <> js "/api/bot-ai" ->
  path_ <> js "/api/deploy" ->
  (handleRequest request sw).1 =
    inr {| http_body := htmlContent site; http_status := 200;
           content_type := Some (js "text/html") |} /\
  (handleRequest request sw).2 = (handleVisitorTracking request sw).2 /\
  (address_of request = None -> (handleRequest request sw).2 = sw).
Proof.
  intros Hp Hbot Hdeploy.
  assert (E : handleRequest request sw =
              (inr {| http_body := htmlContent site; http_status := 200;
                      content_type := Some (js "text/html") |},
               (handleVisitorTracking request sw).2)).
  { unfold handleRequest, then_ at 1. rewrite Hp.
    cbn [settled_ unit_]. by rewrite !bool_decide_eq_false_2 by assumption. }
  rewrite E. cbn [fst snd]. split; [reflexivity|]. split; [reflexivity|].
  intros Hnone. by rewrite (proj1 (tracking_no_address _ sw Hnone)).
Qed.

(** X22. A request for one of the two API paths is not counted as a
    visit: no query is made, no row is written, and the table and the
    clock are left as they were. *)
Theorem api_requests_not_counted request (path_ : jsstring) sw :
  pathname request = inr path_ ->
  path_ = js "/api/bot-ai" \/ path_ = js "/api/deploy" ->
  db (handleRequest request sw).2 = db sw /\
  clock (handleRequest request sw).2 = clock sw /\
  exists evs,
    journal (handleRequest request sw).2 = journal sw ++ evs /\
    queried evs = [] /\ written evs = [].
Proof.
  intros Hp Hpath. destruct Hpath as [-> | ->].
  - assert (E : handleRequest request sw = handleBotRequest request sw).
    { unfold handleRequest, then_ at 1. rewrite Hp. cbn [settled_ unit_].
      by rewrite bool_decide_eq_true_2 by reflexivity. }
    rewrite E.
    destruct (bot_leaves_table request sw) as (_ & Hdb & Hclock & Hj). by repeat split.
  - assert (E : handleRequest request sw =
                (response <-- on_hub (handleDeployRequest (deploy_request request)) ;;
                 unit_ (plain_response response)) sw).
    { unfold handleRequest, then_ at 1. rewrite Hp. cbn [settled_ unit_].
      rewrite bool_decide_eq_false_2 by discriminate.
      by rewrite bool_decide_eq_true_2 by reflexivity. }
    rewrite E. unfold then_, on_hub.
    destruct (handleDeployRequest (deploy_request request) (hub sw)) as [[e|response] w'];
      cbn [snd db clock journal]; repeat split; exists []; by rewrite app_nil_r.
Qed.

(** Through the router, a request for [/api/deploy] changes nothing but
    the hosting part of the world, and is answered as the deploy handler
    answers its method and form, with no header added. *)
Lemma deploy_route request sw :
  pathname request = inr (js "/api/deploy") ->
  (handleRequest request sw).1 =
    match (handleDeployRequest (deploy_request request) (hub sw)).1 with
    | inl e => inl e
    | inr response => inr (plain_response response)
    end /\
  hub (handleRequest request sw).2 =
    (handleDeployRequest (deploy_request request) (hub sw)).2 /\
  ai (handleRequest request sw).2 = ai sw.
Proof.
  intros Hp.
  assert (E : handleRequest request sw =
              (response <-- on_hub (handleDeployRequest (deploy_request request)) ;;
               unit_ (plain_response response)) sw).
  { unfold handleRequest, then_ at 1. rewrite Hp. cbn [settled_ unit_].
    rewrite bool_decide_eq_false_2 by discriminate.
    by rewrite bool_decide_eq_true_2 by reflexivity. }
  rewrite E. unfold then_, on_hub.
  by destruct (handleDeployRequest (deploy_request request) (hub sw)) as [[e|response] w'].
Qed.
End Router.


(** ** The small site at work *)

Lemma str_le_take (n : nat) (s : jsstring) : str_le (take n s) s = true.
Proof.
  revert n. induction s as [|x s IH]; intros [|n]; try reflexivity.
  cbn [take firstn str_le]. rewrite N.ltb_irrefl, N.eqb_refl. apply IH.
Qed.

Lemma demo_table_keeps_rows : ReadYourWrites demo_site.
Proof.
  intros row d d' [= <-].
  change (no_rows (data (demo_select (ip_address row) (take 10 (timestamp row))
                           (d ++ [row])).1) = false).
  unfold demo_select. cbn [fst data].
  rewrite filter_app, (filter_cons_True _ row [])
    by (split; [reflexivity | apply str_le_take]).
  rewrite map_app.
  match goal with |- no_rows (Some (?l ++ _)) = false => by destruct l end.
Qed.

Lemma empty_prompt_rejected_witness :
  handleBotRequest
    (ask (js "POST") (inr (JObject [(js "prompt", JNumber (2 ^ 63))]))) demo_start
  = (inr {| http_body := JSON_stringify_member (js "error") (js "Prompt tidak boleh kosong.");
            http_status := 400;
            content_type := Some (js "application/json") |}, demo_start).
Proof.
  apply (empty_prompt_rejected (site := demo_site) _
           (JObject [(js "prompt", JNumber (2 ^ 63))])).
  - reflexivity.
  - discriminate.
  - vm_compute. reflexivity.
Defined.

Lemma model_failure_hidden_witness :
  exists events,
    handleBotRequest (ask (js "POST") (inr (JObject [(js "prompt", JArray [])]))) demo_start
    = (inr {| http_body :=
                JSON_stringify_member (js "error")
                  (js "Terjadi kesalahan saat menghubungi bot.");
              http_status := 500;
              content_type := Some (js "application/json") |},
       {| hub := hub demo_start; ai := (1%nat : Model demo_site); db := db demo_start;
          clock := clock demo_start;
          journal := journal demo_start ++ events
                       ++ [EvConsoleError (js "Kesalahan AI:")
                             {| err_message := js "blocked" |}] |}) /\
    (events = [EvGenerateContent (prompt_of (JObject [(js "prompt", JArray [])]))] \/
     events = [EvGenerateContent (prompt_of (JObject [(js "prompt", JArray [])]));
               EvResponseText]).
Proof.
  apply (model_failure_hidden (site := demo_site) _
           (JObject [(js "prompt", JArray [])]) {| err_message := js "blocked" |}
           (inr {| text := inl {| err_message := js "blocked" |} |})).
  - reflexivity.
  - discriminate.
  - vm_compute. reflexivity.
  - vm_compute. reflexivity.
  - right. eexists. split; reflexivity.
Defined.

Lemma bot_answer_reads_back_witness :
  exists response,
    handleBotRequest
      (ask (js "GET") (inr (JObject [(js "prompt", JString [34; 10; 0xD800])]))) demo_start
    = (inr response,
       {| hub := hub demo_start; ai := (1%nat : Model demo_site); db := db demo_start;
          clock := clock demo_start;
          journal := journal demo_start
            ++ [EvGenerateContent
                  (prompt_of (JObject [(js "prompt", JString [34; 10; 0xD800])]));
                EvResponseText] |}) /\
    http_status response = 200 /\
    content_type response = Some (js "application/json") /\
    http_body response = js "{" ++ JSON_quote (js "response") ++ js ":"
                           ++ JSON_quote (js "Echo: " ++ [34; 10; 0xD800]) ++ js "}" /\
    JSON_read_member (js "response") (http_body response)
      = Some (js "Echo: " ++ [34; 10; 0xD800]).
Proof.
  apply (bot_answer_reads_back (site := demo_site) _
           (JObject [(js "prompt", JString [34; 10; 0xD800])])
           {| text := inr (js "Echo: " ++ [34; 10; 0xD800]) |}).
  - reflexivity.
  - discriminate.
  - vm_compute. reflexivity.
  - vm_compute. reflexivity.
  - reflexivity.
Defined.

Lemma failed_query_still_writes_witness :
  EvInsert {| ip_address := Some (js "203.0.113.7");
              user_agent := header_user_agent (visit (Some (js "203.0.113.7")) None);
              timestamp := toISOString down_site (S (clock down_start)) |}
    ∈ journal (handleVisitorTracking (visit (Some (js "203.0.113.7")) None) down_start).2 /\
  db (handleVisitorTracking (visit (Some (js "203.0.113.7")) None) down_start).2 =
    (insert_visitor down_site
       {| ip_address := Some (js "203.0.113.7");
          user_agent := header_user_agent (visit (Some (js "203.0.113.7")) None);
          timestamp := toISOString down_site (S (clock down_start)) |}
       ([] : Db down_site)).2.
Proof.
  apply (failed_query_still_writes (site := down_site) _ down_start
           (Some (js "203.0.113.7")) {| data := None; error := Some unreachable |}).
  - reflexivity.
  - reflexivity.
  - reflexivity.
Defined.

Lemma same_day_visit_not_written_again_witness :
  let row := {| ip_address := Some (js "203.0.113.7"); user_agent := Some (js "curl/8.0");
                timestamp := demo_clock 1 |} in
  let sw := @Build_SiteWorld demo_site (demo_world []) 0%nat [row] 2%nat [] in
  handleVisitorTracking (visit (Some (js "203.0.113.7")) None) sw =
  (inr tt,
   {| hub := hub sw; ai := ai sw;
      db := (select_visitors demo_site (ip_address row) (take 10 (timestamp row)) (db sw)).2;
      clock := S (clock sw);
      journal := journal sw ++ [EvSelect (ip_address row) (take 10 (timestamp row))] |}).
Proof.
  intros row sw.
  apply (same_day_visit_not_written_again (site := demo_site) _ sw row []).
  - exact demo_table_keeps_rows.
  - reflexivity.
  - reflexivity.
  - reflexivity.
Defined.

Lemma other_paths_get_the_page_witness :
  let request :=
    {| http_method := js "POST";
       pathname := inr (js "/api/deploy/");
       form := inl {| err_message := js "no form" |};
       json := inl {| err_message := js "no body" |};
       header_x_forwarded_for := Some [];
       header_user_agent := None;
       connection := None |} in
  (handleRequest request demo_start).1 =
    inr {| http_body := htmlContent demo_site; http_status := 200;
           content_type := Some (js "text/html") |} /\
  (handleRequest request demo_start).2 = (handleVisitorTracking request demo_start).2 /\
  (address_of request = None -> (handleRequest request demo_start).2 = demo_start).
Proof.
  intros request.
  apply (other_paths_get_the_page (site := demo_site) request (js "/api/deploy/"));
    [reflexivity | discriminate | discriminate].
Defined.

Lemma api_requests_not_counted_witness :
  db (handleRequest (ask (js "POST") (inr (JObject [(js "prompt", JString (js "hi"))])))
        demo_start).2 = db demo_start /\
  clock (handleRequest (ask (js "POST") (inr (JObject [(js "prompt", JString (js "hi"))])))
           demo_start).2 = clock demo_start /\
  exists evs,
    journal (handleRequest
               (ask (js "POST") (inr (JObject [(js "prompt", JString (js "hi"))])))
               demo_start).2 = journal demo_start ++ evs /\
    queried evs = [] /\ written evs = [].
Proof.
  apply (api_requests_not_counted (site := demo_site) _ (js "/api/bot-ai"));
    [reflexivity | by left].
Defined.
